(** * django-smart-lists: the query-string codec, the sort-token state
      machine and the filter options of [smart_lists/helpers.py]

    The development embeds the pure part of [helpers.py] in Rocq:
    - [QueryParamsMixin.get_url_with_query_params] (the query-string codec),
    - [SmartOrder] (decoding of the sort token and the three link builders),
    - [SmartFilterValue] and [SmartFilter.get_values] (filter options).

    Python values are modelled as the code uses them: strings are
    [String.string] (byte strings), integers are [Z] (column ids, which are
    positions counted from 1, are [N]), dictionaries are association lists in
    insertion order, and a raised exception is an explicit [Raise] result. *)

From Stdlib Require Import List String Ascii NArith ZArith Lia Bool.
From Stdlib Require Import DecimalString DecimalPos DecimalN.
Import ListNotations.

Local Open Scope list_scope.
Local Open Scope string_scope.

(* ================================================================== *)
(** ** Exceptions *)

Module Py.

(** The exceptions the embedded code can raise. *)
Inductive exn : Type :=
| IndexError        (* [value[0]] on an empty list *)
| ValueError        (* [int(c)] on a string that is not a number *)
| AttributeError    (* [.split] / [.replace] on [None] or on a list *)
| TypeError         (* [urlencode] on a [None] value *)
| FieldDoesNotExist (* [model._meta.get_field] on an unknown name *).

Inductive result (A : Type) : Type :=
| Ok (a : A)
| Raise (e : exn).

Arguments Ok {A} a.
Arguments Raise {A} e.

Definition bind {A B : Type} (r : result A) (k : A -> result B) : result B :=
  match r with
  | Ok a => k a
  | Raise e => Raise e
  end.

Definition succeeds {A : Type} (r : result A) : Prop := exists a, r = Ok a.
Definition fails {A : Type} (r : result A) : Prop := exists e, r = Raise e.

(** [[f(x) for x in l]]: left to right, the first exception aborts. *)
Fixpoint mapM {A B : Type} (f : A -> result B) (l : list A) : result (list B) :=
  match l with
  | [] => Ok []
  | x :: xs =>
      bind (f x) (fun y => bind (mapM f xs) (fun ys => Ok (y :: ys)))
  end.

End Py.

Import Py.

Notation "x <- c1 ;; c2" := (Py.bind c1 (fun x => c2))
  (at level 61, c1 at next level, right associativity).

(* ================================================================== *)
(** ** Python string primitives used by the code *)

Module PyStr.

(** [s.split(sep)] for a one-character separator: never an empty list. *)
Fixpoint split (sep : ascii) (s : string) : list string :=
  match s with
  | EmptyString => [EmptyString]
  | String a rest =>
      if Ascii.eqb a sep then EmptyString :: split sep rest
      else match split sep rest with
           | [] => [String a EmptyString]
           | x :: xs => String a x :: xs
           end
  end.

(** [s.replace(c, "")] for a one-character [c]. *)
Fixpoint remove_char (c : ascii) (s : string) : string :=
  match s with
  | EmptyString => EmptyString
  | String a rest =>
      if Ascii.eqb a c then remove_char c rest
      else String a (remove_char c rest)
  end.

(** [s.startswith(c)] for a one-character [c]. *)
Definition startswith (c : ascii) (s : string) : bool :=
  match s with
  | EmptyString => false
  | String a _ => Ascii.eqb a c
  end.

(** [sep.join(l)]. *)
Definition join (sep : string) (l : list string) : string := String.concat sep l.

(** Truth value of a string: non-empty. *)
Definition truthy (s : string) : bool :=
  match s with EmptyString => false | String _ _ => true end.

(** [str(n)] for a non-negative integer. *)
Definition of_N (n : N) : string := NilZero.string_of_uint (N.to_uint n).

(** [str(z)] for an integer. *)
Definition of_Z (z : Z) : string := NilZero.string_of_int (Z.to_int z).

(** [int(s)] on the strings of the token grammar: a non-empty run of ASCII
    decimal digits gives its value (leading zeros allowed), anything else,
    the empty string included, raises [ValueError].  The code only applies
    [int] after removing every ["-"], so the value is never negative.
    (Python also accepts surrounding blanks, a ["+"] and ["_"] between
    digits; these spellings are read as malformed here.) *)
Definition int (s : string) : result N :=
  match NilZero.uint_of_string s with
  | Some d => Ok (N.of_uint d)
  | None => Raise ValueError
  end.

End PyStr.

(* ================================================================== *)
(** ** Values and dictionaries *)

(** A value of the incoming query-parameter mapping: one string, or the
    list of strings of a repeated key ([type(value) == list]). *)
Inductive param : Type :=
| Single (s : string)
| Multi (l : list string).

(** A value the code itself puts into a query: [None] (the "no value"
    sentinel), a string, or an integer (a column id, a choice value). *)
Inductive value : Type :=
| VNone
| VStr (s : string)
| VInt (z : Z).

Definition is_none (v : value) : bool :=
  match v with VNone => true | _ => false end.

(** Python [==] on these values: a string never equals an integer. *)
Definition value_eqb (a b : value) : bool :=
  match a, b with
  | VNone, VNone => true
  | VStr s, VStr t => String.eqb s t
  | VInt x, VInt y => Z.eqb x y
  | _, _ => false
  end.

(** [str(v)]. *)
Definition str_value (v : value) : string :=
  match v with
  | VNone => "None"
  | VStr s => s
  | VInt z => PyStr.of_Z z
  end.

Module Dict.

(** A [dict] with string keys, in insertion order.  The keys of a Python
    dictionary are distinct; [get] reads the first entry of a key and [set]
    writes it, so the lemmas below do not need that as a hypothesis. *)
Definition t (V : Type) : Type := list (string * V).

Section Ops.
Context {V : Type}.

Fixpoint get (d : t V) (k : string) : option V :=
  match d with
  | [] => None
  | (k', v) :: rest => if String.eqb k' k then Some v else get rest k
  end.

(** [d[k] = v]: an existing key keeps its place, a new key goes last. *)
Fixpoint set (d : t V) (k : string) (v : V) : t V :=
  match d with
  | [] => [(k, v)]
  | (k', v') :: rest =>
      if String.eqb k' k then (k', v) :: rest else (k', v') :: set rest k v
  end.

(** [d.update(other)]. *)
Definition update (d other : t V) : t V :=
  fold_left (fun acc kv => set acc (fst kv) (snd kv)) other d.

End Ops.
End Dict.

(* ================================================================== *)
(** ** [django.utils.http.urlencode]

    The library function the codec ends with, for a mapping whose values are
    scalars: every key and [str(value)] goes through [quote_plus], pairs are
    joined with ["&"]; a [None] value is a [TypeError]. *)

Module Url.

Definition is_unreserved (a : ascii) : bool :=
  let n := N_of_ascii a in
  ((48 <=? n) && (n <=? 57) || (65 <=? n) && (n <=? 90)
   || (97 <=? n) && (n <=? 122)
   || (n =? 95) || (n =? 46) || (n =? 45) || (n =? 126))%N.

Definition hex_digit (n : N) : ascii :=
  ascii_of_N (if (n <? 10)%N then 48 + n else 55 + n)%N.

Definition quote_byte (a : ascii) : string :=
  if is_unreserved a then String a EmptyString
  else if Ascii.eqb a " " then "+"
  else let n := N_of_ascii a in
       String "%" (String (hex_digit (n / 16)) (String (hex_digit (n mod 16)) EmptyString)).

Fixpoint quote_plus (s : string) : string :=
  match s with
  | EmptyString => EmptyString
  | String a rest => quote_byte a ++ quote_plus rest
  end.

Definition encode_pair (k v : string) : string :=
  quote_plus k ++ "=" ++ quote_plus v.

Definition encode_item (kv : string * value) : result string :=
  match snd kv with
  | VNone => Raise TypeError
  | VStr s => Ok (encode_pair (fst kv) s)
  | VInt z => Ok (encode_pair (fst kv) (PyStr.of_Z z))
  end.

Definition urlencode (query : Dict.t value) : result string :=
  segs <- mapM encode_item query ;;
  Ok (PyStr.join "&" segs).

End Url.

(* ================================================================== *)
(** ** [QueryParamsMixin] *)

Module QueryParamsMixin.

(** The first loop of [get_url_with_query_params]:
    [if type(value) == list: query[key] = value[0]]. *)
Definition collapse_item (kv : string * param) : result (string * value) :=
  match snd kv with
  | Single s => Ok (fst kv, VStr s)
  | Multi [] => Raise IndexError
  | Multi (x :: _) => Ok (fst kv, VStr x)
  end.

(** The second loop: [if value is None: del query[key]]. *)
Definition drop_none (query : Dict.t value) : Dict.t value :=
  filter (fun kv => negb (is_none (snd kv))) query.

(** The dictionary [query] as it stands when it is handed to [urlencode]. *)
Definition final_query (query_params : Dict.t param)
    (new_query_dict : Dict.t value) : result (Dict.t value) :=
  query <- mapM collapse_item query_params ;;
  let query := Dict.update query new_query_dict in
  Ok (drop_none query).

Definition get_url_with_query_params (query_params : Dict.t param)
    (new_query_dict : Dict.t value) : result string :=
  query <- final_query query_params new_query_dict ;;
  encoded <- Url.urlencode query ;;
  Ok ("?" ++ encoded).

End QueryParamsMixin.

Import QueryParamsMixin.

(* ================================================================== *)
(** ** [SmartOrder] *)

Module SmartOrder.

Record t : Type := mk {
  query_params : Dict.t param;
  column_id : N;
  ordering_query_param : string;
  query_order : option param;          (* [query_params.get(...)] *)
  current_columns : list N;
  current_columns_length : nat
}.

(** [self.query_order.split('.')]: only a string has [split]. *)
Definition order_split (query_order : option param) : result (list string) :=
  match query_order with
  | Some (Single s) => Ok (PyStr.split "." s)
  | Some (Multi _) => Raise AttributeError
  | None => Raise AttributeError
  end.

(** [[int(col) for col in self.query_order.replace("-", "").split(".")]
     if self.query_order else []]. *)
Definition parse_columns (query_order : option param) : result (list N) :=
  match query_order with
  | None => Ok []
  | Some (Single s) =>
      if PyStr.truthy s
      then mapM PyStr.int (PyStr.split "." (PyStr.remove_char "-" s))
      else Ok []
  | Some (Multi []) => Ok []
  | Some (Multi (_ :: _)) => Raise AttributeError
  end.

Definition init (query_params : Dict.t param) (column_id : N)
    (ordering_query_param : string) : result t :=
  let query_order := Dict.get query_params ordering_query_param in
  current_columns <- parse_columns query_order ;;
  Ok (mk query_params column_id ordering_query_param query_order
         current_columns (List.length current_columns)).

Definition is_ordered (self : t) : bool :=
  existsb (N.eqb (column_id self)) (current_columns self).

(** [list.index(x)]. *)
Fixpoint index (x : N) (l : list N) : option nat :=
  match l with
  | [] => None
  | y :: rest => if N.eqb y x then Some 0 else option_map S (index x rest)
  end.

(** The [priority] property: [None] when the column is not ordered. *)
Definition priority (self : t) : option nat :=
  if is_ordered self
  then option_map (fun i => i + 1) (index (column_id self) (current_columns self))
  else None.

Fixpoint is_reverse_loop (column_id : N) (columns : list string) : result bool :=
  match columns with
  | [] => Ok false
  | column :: rest =>
      let c := PyStr.remove_char "-" column in
      n <- PyStr.int c ;;
      if N.eqb n column_id && PyStr.startswith "-" column then Ok true
      else is_reverse_loop column_id rest
  end.

Definition is_reverse (self : t) : result bool :=
  columns <- order_split (query_order self) ;;
  is_reverse_loop (column_id self) columns.

(** The loop shared by [get_add_sort_by] and [get_remove_sort_by]:
    keep the elements that are not [column_id]. *)
Fixpoint remove_loop (column_id : N) (columns : list string) : result (list string) :=
  match columns with
  | [] => Ok []
  | column :: rest =>
      let c := PyStr.remove_char "-" column in
      n <- PyStr.int c ;;
      new_query <- remove_loop column_id rest ;;
      Ok (if negb (N.eqb n column_id) then column :: new_query else new_query)
  end.

(** The loop of [get_reverse_sort_by]. *)
Fixpoint reverse_loop (column_id : N) (columns : list string) : result (list string) :=
  match columns with
  | [] => Ok []
  | column :: rest =>
      let c := PyStr.remove_char "-" column in
      n <- PyStr.int c ;;
      new_query <- reverse_loop column_id rest ;;
      Ok ((if N.eqb n column_id
           then if PyStr.startswith "-" column then c else "-" ++ c
           else column) :: new_query)
  end.

Definition get_remove_sort_by (self : t) : result string :=
  columns <- order_split (query_order self) ;;
  new_query <- remove_loop (column_id self) columns ;;
  get_url_with_query_params (query_params self)
    [(ordering_query_param self, VStr (PyStr.join "." new_query))].

Definition get_reverse_sort_by (self : t) : result string :=
  columns <- order_split (query_order self) ;;
  new_query <- reverse_loop (column_id self) columns ;;
  get_url_with_query_params (query_params self)
    [(ordering_query_param self, VStr (PyStr.join "." new_query))].

(** [self.current_columns[0] == self.column_id]. *)
Definition first_is (self : t) : result bool :=
  match current_columns self with
  | [] => Raise IndexError
  | x :: _ => Ok (N.eqb x (column_id self))
  end.

Definition get_add_sort_by (self : t) : result string :=
  if negb (is_ordered self) then
    match query_order self with
    | Some (Single s) =>
        if PyStr.truthy s
        then get_url_with_query_params (query_params self)
               [(ordering_query_param self,
                 VStr (PyStr.of_N (column_id self) ++ "." ++ s))]
        else get_url_with_query_params (query_params self)
               [(ordering_query_param self, VInt (Z.of_N (column_id self)))]
    | Some (Multi (_ :: _)) =>
        (* not reached: [__init__] raises on a non-empty list *)
        Raise AttributeError
    | Some (Multi []) | None =>
        get_url_with_query_params (query_params self)
          [(ordering_query_param self, VInt (Z.of_N (column_id self)))]
    end
  else if Nat.ltb 1 (current_columns_length self) then
    columns <- order_split (query_order self) ;;
    new_query <- remove_loop (column_id self) columns ;;
    reversed <- is_reverse self ;;
    primary <- (if negb reversed then first_is self else Ok false) ;;
    if negb reversed && primary
    then get_url_with_query_params (query_params self)
           [(ordering_query_param self,
             VStr ("-" ++ PyStr.of_N (column_id self) ++ "." ++ PyStr.join "." new_query))]
    else get_url_with_query_params (query_params self)
           [(ordering_query_param self,
             VStr (PyStr.of_N (column_id self) ++ "." ++ PyStr.join "." new_query))]
  else get_reverse_sort_by self.

End SmartOrder.

(* ================================================================== *)
(** ** [SmartFilterValue] and [SmartFilter] *)

Module SmartFilterValue.

Record t : Type := mk {
  field_name : string;
  label : string;
  value_ : value;
  query_params : Dict.t param
}.

Definition get_title (self : t) : string := label self.


Definition is_active (self : t) : result bool :=
  match Dict.get (query_params self) (field_name self) with
  | Some stored =>
      selected_value <-
        match stored with
        | Single s => Ok s
        | Multi [] => Raise IndexError
        | Multi (x :: _) => Ok x
        end ;;
      Ok (value_eqb (VStr selected_value) (value_ self))
  | None => Ok (is_none (value_ self))
  end.

End SmartFilterValue.

Module SmartFilter.

(** What [get_values] looks at in a model field: its [choices], and whether
    it is a [BooleanField] or a [ForeignKey]; for a foreign key, [related]
    is the result of the two ORM queries: the display string and the
    primary key of every referenced record that occurs in the object list. *)
Inductive field_type : Type :=
| BooleanField
| ForeignKey (related : list (string * value))
| OtherField.

Inductive model_field : Type :=
| SmartListFilter (parameter_name title : string) (lookups : list (value * string))
| Field (choices : list (value * string)) (ty : field_type).

(** The [field] argument of [__init__]: a [SmartListFilter] or a name. *)
Inductive field_arg : Type :=
| Custom (parameter_name title : string) (lookups : list (value * string))
| Name (field_name : string).

Record t : Type := mk {
  field_name : string;
  model_field_ : model_field;
  query_params : Dict.t param
}.

(** [meta] stands for [model._meta.get_field]. *)
Definition init (meta : string -> option model_field) (field : field_arg)
    (query_params : Dict.t param) : result t :=
  match field with
  | Custom parameter_name title lookups =>
      Ok (mk parameter_name (SmartListFilter parameter_name title lookups) query_params)
  | Name name =>
      match meta name with
      | Some f => Ok (mk name f query_params)
      | None => Raise FieldDoesNotExist
      end
  end.

Definition get_values (self : t) : list SmartFilterValue.t :=
  let values :=
    match model_field_ self with
    | SmartListFilter parameter_name _ lookups =>
        map (fun choice => SmartFilterValue.mk parameter_name (snd choice) (fst choice)
                             (query_params self)) lookups
    | Field (c :: cs) _ =>
        map (fun choice => SmartFilterValue.mk (field_name self) (snd choice) (fst choice)
                             (query_params self)) (c :: cs)
    | Field [] BooleanField =>
        map (fun choice => SmartFilterValue.mk (field_name self) (snd choice) (fst choice)
                             (query_params self)) [(VInt 1, "Yes"); (VInt 0, "No")]
    | Field [] (ForeignKey related) =>
        (* [SmartFilterValue(self.field_name, obj, str(obj.pk), ...)] *)
        map (fun obj => SmartFilterValue.mk (field_name self) (fst obj)
                          (VStr (str_value (snd obj))) (query_params self)) related
    | Field [] OtherField => []
    end in
  SmartFilterValue.mk (field_name self) "All" VNone (query_params self) :: values.

End SmartFilter.

(** The metadata of scenario 6: a field ["status"] with the choices
    [[(1, "Open"), (2, "Closed")]]. *)
Definition status_meta (name : string) : option SmartFilter.model_field :=
  if String.eqb name "status"
  then Some (SmartFilter.Field [(VInt 1, "Open"); (VInt 2, "Closed")] SmartFilter.OtherField)
  else None.

(* ================================================================== *)
(** ** Character occurrence (used to state the string lemmas) *)

Module Chars.

(** Character [c] does not occur in [s]. *)
Fixpoint lacks (c : ascii) (s : string) : bool :=
  match s with
  | EmptyString => true
  | String a rest => negb (Ascii.eqb a c) && lacks c rest
  end.

Definition is_digit (a : ascii) : bool :=
  let n := N_of_ascii a in ((48 <=? n) && (n <=? 57))%N.

End Chars.

(* ================================================================== *)
(** ** The sort token as data

    A well-formed token is the rendering of a list of signed column ids:
    [[(2,false); (1,true); (3,false)]] is ["2.-1.3"].  The functions below
    say what the three links are expected to do on that list. *)

Module Token.

(** A column id and whether it is sorted descending. *)
Definition item : Type := (N * bool)%type.

Definition ids (items : list item) : list N := map fst items.

Definition render_item (it : item) : string :=
  (if snd it then "-" else "") ++ PyStr.of_N (fst it).

Definition render_token (items : list item) : string :=
  PyStr.join "." (map render_item items).

(** The items other than column [c], in their order. *)
Definition remove_column (c : N) (items : list item) : list item :=
  filter (fun it => negb (N.eqb (fst it) c)) items.

(** Column [c] with its direction flipped, everything else as it was. *)
Definition toggle (c : N) (items : list item) : list item :=
  map (fun it => if N.eqb (fst it) c then (fst it, negb (snd it)) else it) items.

(** Column [c] is the primary column and is ascending. *)
Definition primary_ascending (c : N) (items : list item) : bool :=
  match items with
  | [] => false
  | it :: _ => N.eqb (fst it) c && negb (snd it)
  end.

(** Column [c] moved to the front: descending when it was the ascending
    primary column, ascending otherwise. *)
Definition promote (c : N) (items : list item) : list item :=
  (c, primary_ascending c items) :: remove_column c items.

End Token.

(* ================================================================== *)
(** ** Reading a query string

    A query string ["?k1=v1&k2=v2"] carries the pair [(k, x)] when one of
    its ["&"]-separated segments is the encoding of that pair; parameter
    [k] is absent from it when no segment encodes [k] with any value. *)

Definition carries (url k x : string) : Prop :=
  exists segs, url = "?" ++ PyStr.join "&" segs /\ In (Url.encode_pair k x) segs.

Definition param_absent (url k : string) : Prop :=
  exists segs, url = "?" ++ PyStr.join "&" segs /\
               forall x, ~ In (Url.encode_pair k x) segs.

(** No value of the mapping is an empty list. *)
Definition no_empty_list (query_params : Dict.t param) : Prop :=
  forall k, ~ In (k, Multi []) query_params.

(** The value the codec keeps for a stored parameter: the string itself, or
    the first element of the list. *)
Definition first_value (v : param) : option string :=
  match v with
  | Single s => Some s
  | Multi l => hd_error l
  end.

(* ================================================================== *)
(** ** [SmartColumn] and [SmartList] *)

(** Construction of a column can also raise [SmartListException]. *)
Inductive error : Type :=
| SmartListException
| Python (e : exn).

Inductive built (A : Type) : Type :=
| Built (a : A)
| Failed (e : error).

Arguments Built {A} a.
Arguments Failed {A} e.

Definition bind_built {A B : Type} (r : built A) (k : A -> built B) : built B :=
  match r with
  | Built a => k a
  | Failed e => Failed e
  end.

Definition lift {A : Type} (r : result A) : built A :=
  match r with
  | Ok a => Built a
  | Raise e => Failed (Python e)
  end.

(** A list comprehension whose element constructor can raise. *)
Fixpoint map_built {A B : Type} (f : A -> built B) (l : list A) : built (list B) :=
  match l with
  | [] => Built []
  | x :: xs =>
      bind_built (f x) (fun y => bind_built (map_built f xs) (fun ys => Built (y :: ys)))
  end.

(** [enumerate(l, start)]. *)
Fixpoint enumerate {A : Type} (start : N) (l : list A) : list (N * A) :=
  match l with
  | [] => []
  | x :: xs => (start, x) :: enumerate (start + 1)%N xs
  end.

Module SmartColumn.

(** What [__init__] looks at in [getattr(self.model, self.field_name)]:
    whether it is callable, its [admin_order_field] (absent: [None]) and
    whether it is flagged [alters_data]. *)
Record attribute : Type := mk_attribute {
  callable : bool;
  admin_order_field : option string;
  alters_data : bool
}.

(** The model as [__init__] uses it: [model._meta.get_field(name)], where
    no result stands for [FieldDoesNotExist], and [getattr(model, name)],
    where no result stands for [AttributeError]. *)
Record model : Type := mk_model {
  get_field : string -> option SmartFilter.model_field;
  getattr : string -> option attribute
}.

(** The [query_params] argument: a mapping, or, as [SmartList] passes for
    its default column, the value of the sort parameter. *)
Inductive query_arg : Type :=
| Mapping (d : Dict.t param)
| NotMapping (v : param).

Record t : Type := mk {
  field_name : string;
  model_field : option SmartFilter.model_field;
  order_field : option string;
  order : option SmartOrder.t
}.

(** Truth value of [None] or a string. *)
Definition truthy_opt (s : option string) : bool :=
  match s with
  | Some x => PyStr.truthy x
  | None => false
  end.

(** The [try] block: the model field and the order field. *)
Definition resolve (m : model) (field : string)
  : built (option SmartFilter.model_field * option string) :=
  match get_field m field with
  | Some f => Built (Some f, Some field)
  | None =>
      match getattr m field with
      | Some a =>
          let order_field :=
            if callable a && truthy_opt (admin_order_field a)
            then admin_order_field a else None in
          if callable a && alters_data a then Failed SmartListException
          else Built (None, order_field)
      | None => Built (None, Some field)
      end
  end.

(** [SmartOrder(query_params=..., ...)]: [.get] exists on a mapping only. *)
Definition make_order (query_params : query_arg) (column_id : N)
    (ordering_query_param : string) : built SmartOrder.t :=
  match query_params with
  | Mapping d => lift (SmartOrder.init d column_id ordering_query_param)
  | NotMapping _ => Failed (Python AttributeError)
  end.

Definition init (m : model) (field : string) (column_id : N)
    (query_params : query_arg) (ordering_query_param : string) : built t :=
  if PyStr.startswith "_" field && negb (String.eqb field "__str__")
  then Failed SmartListException
  else
    bind_built (resolve m field) (fun r =>
      if truthy_opt (snd r)
      then bind_built (make_order query_params column_id ordering_query_param)
             (fun o => Built (mk field (fst r) (snd r) (Some o)))
      else Built (mk field (fst r) (snd r) None)).

End SmartColumn.

Module SmartList.

Record t : Type := mk {
  query_params : Dict.t param;
  list_display : list string;
  search_query_value : param;
  ordering_query_value : param;
  columns : list SmartColumn.t;
  filters : list SmartFilter.t
}.

(** [query_params.get(key, '')]. *)
Definition get_or_empty (d : Dict.t param) (key : string) : param :=
  match Dict.get d key with
  | Some v => v
  | None => Single ""
  end.

(** [__init__]; an argument left out or [None] is [None] here
    ([query_params or {}]), lists default to the empty list. *)
Definition init (m : SmartColumn.model) (query_params : option (Dict.t param))
    (list_display : list string) (list_filter : list SmartFilter.field_arg)
    (search_query_param ordering_query_param : string) : built t :=
  let qp := match query_params with Some d => d | None => [] end in
  let search_query_value := get_or_empty qp search_query_param in
  let ordering_query_value := get_or_empty qp ordering_query_param in
  bind_built
    (map_built (fun c => SmartColumn.init m (snd c) (fst c) (SmartColumn.Mapping qp)
                           ordering_query_param)
               (enumerate 1 list_display))
    (fun cols =>
  bind_built
    (match cols with
     | [] => bind_built (SmartColumn.init m "__str__" 1
                           (SmartColumn.NotMapping ordering_query_value)
                           ordering_query_param)
                        (fun c => Built [c])
     | _ :: _ => Built cols
     end)
    (fun columns =>
  bind_built
    (map_built (fun field => lift (SmartFilter.init (SmartColumn.get_field m) field qp))
               list_filter)
    (fun filters =>
  Built (mk qp list_display search_query_value ordering_query_value columns filters)))).

End SmartList.

(** Reading back the first encoded byte of a [quote_plus] output: used to
    show that different strings have different encodings. *)
Module Unquote.



End Unquote.

(** The elements [cols] of a token all read as numbers, [ns], once their
    ["-"] are taken out. *)
Definition parsed (cols : list string) (ns : list N) : Prop :=
  mapM (fun col => PyStr.int (PyStr.remove_char "-" col)) cols = Ok ns.

(* ================================================================== *)
(** * Facts about the string primitives *)

Section StringFacts.

Import Chars PyStr.

Lemma append_empty_r (s : string) : s ++ "" = s.
Proof. induction s as [|a s IH]; simpl; [reflexivity | now rewrite IH]. Qed.

Lemma append_assoc (s t u : string) : (s ++ t) ++ u = s ++ (t ++ u).
Proof. induction s as [|a s IH]; simpl; [reflexivity | now rewrite IH]. Qed.

Lemma lacks_app (c : ascii) (s t : string) :
  lacks c (s ++ t) = lacks c s && lacks c t.
Proof.
  induction s as [|a s IH]; simpl; [reflexivity|].
  rewrite IH. now rewrite andb_assoc.
Qed.

Lemma remove_char_lacks (c : ascii) (s : string) :
  lacks c s = true -> remove_char c s = s.
Proof.
  induction s as [|a s IH]; simpl; [reflexivity|].
  intros H. apply andb_true_iff in H as [Ha Hs].
  apply negb_true_iff in Ha. rewrite Ha. now rewrite IH.
Qed.

Lemma remove_char_app (c : ascii) (s t : string) :
  remove_char c (s ++ t) = remove_char c s ++ remove_char c t.
Proof.
  induction s as [|a s IH]; simpl; [reflexivity|].
  destruct (Ascii.eqb a c); simpl; now rewrite IH.
Qed.

Lemma split_lacks (c : ascii) (s : string) :
  lacks c s = true -> split c s = [s].
Proof.
  induction s as [|a s IH]; simpl; [reflexivity|].
  intros H. apply andb_true_iff in H as [Ha Hs].
  apply negb_true_iff in Ha. rewrite Ha. now rewrite IH.
Qed.

Lemma split_app (c : ascii) (s t : string) :
  lacks c s = true -> split c (s ++ String c t) = s :: split c t.
Proof.
  induction s as [|a s IH]; simpl.
  - intros _. now rewrite Ascii.eqb_refl.
  - intros H. apply andb_true_iff in H as [Ha Hs].
    apply negb_true_iff in Ha. rewrite Ha. now rewrite IH.
Qed.

Lemma join_cons2 (sep x y : string) (l : list string) :
  join sep (x :: y :: l) = x ++ sep ++ join sep (y :: l).
Proof. reflexivity. Qed.

Lemma split_join (c : ascii) (l : list string) :
  l <> [] -> Forall (fun s => lacks c s = true) l ->
  split c (join (String c "") l) = l.
Proof.
  induction l as [|x l IH]; [congruence|].
  intros _ HF. inversion HF as [|? ? Hx Hl]; subst.
  destruct l as [|y l].
  - simpl. now apply split_lacks.
  - rewrite join_cons2. simpl append at 2.
    change (String c "" ++ join (String c "") (y :: l))
      with (String c (join (String c "") (y :: l))).
    rewrite split_app by assumption.
    f_equal. apply IH; [discriminate | assumption].
Qed.

Lemma remove_char_join (c sep : ascii) (l : list string) :
  c <> sep ->
  remove_char c (join (String sep "") l) = join (String sep "") (map (remove_char c) l).
Proof.
  intros Hne. induction l as [|x l IH]; [reflexivity|].
  destruct l as [|y l]; [reflexivity|].
  rewrite join_cons2. cbn [map]. rewrite join_cons2.
  rewrite remove_char_app. f_equal.
  change (String sep "" ++ join (String sep "") (y :: l))
    with (String sep (join (String sep "") (y :: l))).
  cbn [remove_char].
  assert (Ascii.eqb sep c = false) as ->.
  { apply Ascii.eqb_neq. congruence. }
  simpl append. f_equal. exact IH.
Qed.

(** Decimal numerals are made of digits only. *)
Lemma lacks_uint (c : ascii) (d : Decimal.uint) :
  is_digit c = false -> lacks c (NilEmpty.string_of_uint d) = true.
Proof.
  intros Hc.
  induction d; cbn [NilEmpty.string_of_uint lacks]; try reflexivity;
    rewrite IHd, andb_true_r;
    apply negb_true_iff, Ascii.eqb_neq; intros <-; discriminate Hc.
Qed.

Lemma lacks_of_N (c : ascii) (n : N) :
  is_digit c = false -> lacks c (of_N n) = true.
Proof.
  intros Hc. unfold of_N, NilZero.string_of_uint.
  destruct (N.to_uint n) eqn:E;
    try (rewrite <- E; apply lacks_uint; assumption).
  cbn [lacks]. rewrite andb_true_r.
  apply negb_true_iff, Ascii.eqb_neq; intros <-; discriminate Hc.
Qed.

Lemma to_uint_nonnil (n : N) : N.to_uint n <> Decimal.Nil.
Proof.
  destruct n; simpl; [discriminate | apply DecimalPos.Unsigned.to_uint_nonnil].
Qed.

Lemma int_of_N (n : N) : int (of_N n) = Ok n.
Proof.
  unfold int, of_N.
  rewrite NilZero.usu by apply to_uint_nonnil.
  now rewrite DecimalN.Unsigned.of_to.
Qed.

Lemma truthy_of_N (n : N) : truthy (of_N n) = true.
Proof.
  unfold of_N, NilZero.string_of_uint.
  destruct (N.to_uint n) eqn:E; try reflexivity.
Qed.

Lemma startswith_lacks (c : ascii) (s : string) :
  lacks c s = true -> startswith c s = false.
Proof.
  destruct s as [|a s]; simpl; [reflexivity|].
  intros H. apply andb_true_iff in H as [Ha _]. now apply negb_true_iff in Ha.
Qed.

Lemma of_Z_of_N (n : N) : of_Z (Z.of_N n) = of_N n.
Proof. destruct n; reflexivity. Qed.

Lemma truthy_app_l (s t : string) : truthy s = true -> truthy (s ++ t) = true.
Proof. destruct s; simpl; [discriminate | reflexivity]. Qed.

Lemma truthy_app_r (s t : string) : truthy t = true -> truthy (s ++ t) = true.
Proof. destruct s; simpl; [trivial | reflexivity]. Qed.

End StringFacts.

(* ================================================================== *)
(** * Facts about rendered tokens and the loops of [SmartOrder] *)

Section TokenFacts.

Import Chars PyStr Token SmartOrder.

Lemma render_item_lacks_dot (it : item) : lacks "." (render_item it) = true.
Proof.
  unfold render_item. rewrite lacks_app, lacks_of_N by reflexivity.
  now destruct (snd it).
Qed.

Lemma render_item_strip (it : item) :
  remove_char "-" (render_item it) = of_N (fst it).
Proof.
  unfold render_item. rewrite remove_char_app.
  rewrite (remove_char_lacks "-" (of_N (fst it))) by (now apply lacks_of_N).
  now destruct (snd it).
Qed.

Lemma render_item_startswith (it : item) :
  startswith "-" (render_item it) = snd it.
Proof.
  unfold render_item. destruct (snd it); [reflexivity|].
  simpl append. apply startswith_lacks. now apply lacks_of_N.
Qed.

Lemma render_item_int (it : item) :
  int (remove_char "-" (render_item it)) = Ok (fst it).
Proof. rewrite render_item_strip. apply int_of_N. Qed.

Lemma render_item_truthy (it : item) : truthy (render_item it) = true.
Proof. unfold render_item. apply truthy_app_r, truthy_of_N. Qed.

Lemma render_token_truthy (items : list item) :
  items <> [] -> truthy (render_token items) = true.
Proof.
  destruct items as [|it [|it' items]]; [congruence | |]; intros _.
  - apply render_item_truthy.
  - unfold render_token. cbn [map]. rewrite join_cons2.
    apply truthy_app_l, render_item_truthy.
Qed.

Lemma render_token_cons (it : item) (items : list item) :
  items <> [] ->
  render_token (it :: items) = render_item it ++ "." ++ render_token items.
Proof. destruct items; [congruence | reflexivity]. Qed.

(** Splitting a rendered token gives back the rendered items. *)
Lemma split_render_token (items : list item) :
  items <> [] -> split "." (render_token items) = map render_item items.
Proof.
  intros Hne. unfold render_token. apply split_join.
  - destruct items; [congruence | discriminate].
  - apply Forall_forall. intros s Hs. apply in_map_iff in Hs as [it [<- _]].
    apply render_item_lacks_dot.
Qed.

(** What [__init__] computes from a rendered token. *)
Lemma parse_render_token (items : list item) :
  items <> [] ->
  mapM int (split "." (remove_char "-" (render_token items))) = Ok (ids items).
Proof.
  intros Hne. unfold render_token.
  rewrite remove_char_join by discriminate.
  rewrite map_map.
  rewrite split_join.
  - clear Hne. induction items as [|it items IH]; [reflexivity|].
    cbn [map mapM ids]. rewrite render_item_int. cbn [bind].
    unfold ids in IH. now rewrite IH.
  - destruct items; [congruence | discriminate].
  - apply Forall_forall. intros s Hs. apply in_map_iff in Hs as [it [<- _]].
    rewrite render_item_strip. now apply lacks_of_N.
Qed.

Lemma init_render_token (qp : Dict.t param) (c : N) (p : string) (items : list item) :
  Dict.get qp p = Some (Single (render_token items)) ->
  items <> [] ->
  init qp c p =
    Ok (mk qp c p (Some (Single (render_token items))) (ids items) (List.length items)).
Proof.
  intros Hget Hne. unfold init. rewrite Hget. cbn [parse_columns].
  rewrite render_token_truthy, parse_render_token by assumption.
  cbn [bind]. unfold ids. now rewrite length_map.
Qed.

Lemma remove_loop_render (c : N) (items : list item) :
  remove_loop c (map render_item items) = Ok (map render_item (remove_column c items)).
Proof.
  induction items as [|it items IH]; [reflexivity|].
  cbn [map remove_loop]. rewrite render_item_int, IH. cbn [bind remove_column filter].
  now destruct (negb (fst it =? c)%N).
Qed.

Lemma reverse_loop_render (c : N) (items : list item) :
  reverse_loop c (map render_item items) = Ok (map render_item (toggle c items)).
Proof.
  induction items as [|it items IH]; [reflexivity|].
  cbn [map reverse_loop]. rewrite render_item_int, IH. cbn [bind toggle map].
  rewrite render_item_startswith, render_item_strip.
  do 2 f_equal.
  destruct it as [n d]; cbn [fst snd].
  destruct (n =? c)%N; [|reflexivity].
  unfold render_item; cbn [fst snd]. now destruct d.
Qed.

Lemma is_reverse_loop_render (c : N) (items : list item) :
  is_reverse_loop c (map render_item items) =
    Ok (existsb (fun it => (fst it =? c)%N && snd it) items).
Proof.
  induction items as [|it items IH]; [reflexivity|].
  cbn [map is_reverse_loop existsb]. rewrite render_item_int. cbn [bind].
  rewrite render_item_startswith.
  destruct ((fst it =? c)%N && snd it); [reflexivity | exact IH].
Qed.

Lemma is_ordered_ids (c : N) (l : list N) :
  existsb (N.eqb c) l = true <-> In c l.
Proof.
  rewrite existsb_exists. split.
  - intros [x [Hx Heq]]. apply N.eqb_eq in Heq. now subst.
  - intros H. exists c. split; [assumption | apply N.eqb_refl].
Qed.

(** With distinct ids, some element of column [c] is descending exactly when
    the primary-ascending test fails on a token that starts with [c]. *)
Lemma not_reversed_primary (c : N) (items : list item) :
  NoDup (ids items) ->
  negb (existsb (fun it => (fst it =? c)%N && snd it) items)
    && match ids items with [] => false | x :: _ => (x =? c)%N end
  = primary_ascending c items.
Proof.
  destruct items as [|[n d] items]; [reflexivity|].
  cbn [ids map fst snd existsb primary_ascending]. intros Hnd.
  destruct (N.eqb_spec n c) as [->|Hne]; cbn [andb orb].
  - inversion Hnd as [|? ? Hnotin _]; subst.
    assert (existsb (fun it => (fst it =? c)%N && snd it) items = false) as ->.
    { apply not_true_is_false. intros H. apply existsb_exists in H as [it [Hin Hit]].
      apply andb_true_iff in Hit as [Hc _]. apply N.eqb_eq in Hc. subst.
      apply Hnotin. now apply in_map. }
    now rewrite orb_false_r, andb_true_r.
  - now rewrite andb_false_r.
Qed.

Lemma remove_column_length (c : N) (items : list item) :
  NoDup (ids items) -> In c (ids items) ->
  S (List.length (remove_column c items)) = List.length items.
Proof.
  induction items as [|[n d] items IH]; [contradiction|].
  cbn [ids map fst remove_column filter]. intros Hnd Hin.
  inversion Hnd as [|? ? Hnotin Hnd']; subst.
  destruct (N.eqb_spec n c) as [->|Hne]; cbn [negb List.length].
  - f_equal. f_equal. clear IH Hnd Hnd' Hin.
    induction items as [|[m e] items IH]; [reflexivity|].
    cbn [filter fst]. cbn [map fst] in Hnotin.
    destruct (N.eqb_spec m c) as [->|Hm]; cbn [negb].
    + exfalso. apply Hnotin. now left.
    + rewrite IH; [reflexivity|]. intros H. apply Hnotin. now right.
  - f_equal. apply IH; [assumption|]. destruct Hin; [congruence | assumption].
Qed.

Lemma toggle_involutive (c : N) (items : list item) :
  toggle c (toggle c items) = items.
Proof.
  unfold toggle. rewrite map_map. rewrite <- (map_id items) at 2.
  apply map_ext. intros [n d]. cbn [fst snd].
  destruct (n =? c)%N eqn:E; cbn [fst snd]; rewrite E; [|reflexivity].
  now rewrite negb_involutive.
Qed.

Lemma toggle_ids (c : N) (items : list item) : ids (toggle c items) = ids items.
Proof.
  unfold ids, toggle. rewrite map_map. apply map_ext.
  intros [n d]. cbn [fst]. now destruct (n =? c)%N.
Qed.

End TokenFacts.

(* ================================================================== *)
(** * Facts about dictionaries and the codec *)

Section CodecFacts.

Lemma get_In {V : Type} (d : Dict.t V) (k : string) (v : V) :
  Dict.get d k = Some v -> In (k, v) d.
Proof.
  induction d as [|[k' v'] d IH]; cbn [Dict.get]; [discriminate|].
  destruct (String.eqb_spec k' k) as [->|Hne].
  - intros [= ->]. now left.
  - intros H. right. now apply IH.
Qed.

Lemma get_set_same {V : Type} (d : Dict.t V) (k : string) (v : V) :
  Dict.get (Dict.set d k v) k = Some v.
Proof.
  induction d as [|[k' v'] d IH]; cbn [Dict.set Dict.get].
  - now rewrite String.eqb_refl.
  - destruct (String.eqb k' k) eqn:E; cbn [Dict.get]; rewrite E; [reflexivity | exact IH].
Qed.

Lemma get_set_other {V : Type} (d : Dict.t V) (k k' : string) (v : V) :
  k' <> k -> Dict.get (Dict.set d k' v) k = Dict.get d k.
Proof.
  intros Hne. induction d as [|[k0 v0] d IH]; cbn [Dict.set Dict.get].
  - apply String.eqb_neq in Hne. now rewrite Hne.
  - destruct (String.eqb_spec k0 k') as [->|Hk0]; cbn [Dict.get].
    + apply String.eqb_neq in Hne. now rewrite Hne.
    + now rewrite IH.
Qed.

Lemma get_update_other {V : Type} (other d : Dict.t V) (k : string) :
  Dict.get other k = None -> Dict.get (Dict.update d other) k = Dict.get d k.
Proof.
  unfold Dict.update. revert d.
  induction other as [|[k' v'] other IH]; intros d; cbn [fold_left Dict.get fst snd];
    [reflexivity|].
  destruct (String.eqb_spec k' k) as [->|Hne]; [discriminate|].
  intros H. rewrite IH by assumption. now apply get_set_other.
Qed.

Lemma get_update_single {V : Type} (d : Dict.t V) (k : string) (v : V) :
  Dict.get (Dict.update d [(k, v)]) k = Some v.
Proof. apply get_set_same. Qed.

Lemma get_drop_none (d : Dict.t value) (k : string) (v : value) :
  Dict.get d k = Some v -> v <> VNone -> Dict.get (drop_none d) k = Some v.
Proof.
  intros Hget Hv. induction d as [|[k' v'] d IH]; cbn [Dict.get] in *; [discriminate|].
  cbn [drop_none filter snd].
  destruct (String.eqb k' k) eqn:E.
  - injection Hget as ->. destruct v; [congruence | |]; cbn [is_none negb Dict.get];
      now rewrite E.
  - destruct (negb (is_none v')); cbn [Dict.get]; [rewrite E|]; now apply IH.
Qed.

(** The first loop succeeds exactly on mappings without an empty list. *)
Lemma collapse_succeeds (qp : Dict.t param) :
  no_empty_list qp -> exists q, mapM collapse_item qp = Ok q.
Proof.
  induction qp as [|[k v] qp IH]; intros Hne; [now exists []|].
  destruct IH as [q Hq].
  { intros k' Hin. apply (Hne k'). now right. }
  cbn [mapM]. destruct v as [s|[|x l]]; cbn [collapse_item snd fst bind].
  - rewrite Hq. now eexists.
  - exfalso. apply (Hne k). now left.
  - rewrite Hq. now eexists.
Qed.

Lemma collapse_get (qp : Dict.t param) (q : Dict.t value) (k : string) (v : param) :
  mapM collapse_item qp = Ok q -> Dict.get qp k = Some v ->
  exists x, first_value v = Some x /\ Dict.get q k = Some (VStr x).
Proof.
  revert q. induction qp as [|[k' v'] qp IH]; intros q Hq Hget;
    cbn [Dict.get] in Hget; [discriminate|].
  cbn [mapM] in Hq.
  destruct (collapse_item (k', v')) as [kv|] eqn:Hc; cbn [bind] in Hq; [|discriminate].
  destruct (mapM collapse_item qp) as [q'|] eqn:Hq'; cbn [bind] in Hq; [|discriminate].
  injection Hq as <-.
  assert (fst kv = k') as Hk.
  { unfold collapse_item in Hc. cbn [snd fst] in Hc.
    destruct v' as [s|[|x l]]; try discriminate; now injection Hc as <-. }
  destruct kv as [k0 v0]. cbn [fst] in Hk. subst k0. cbn [Dict.get].
  destruct (String.eqb k' k) eqn:E.
  - injection Hget as ->. unfold collapse_item in Hc. cbn [snd fst] in Hc.
    destruct v as [s|[|x l]]; try discriminate; injection Hc as <-; now eexists.
  - now apply (IH q').
Qed.

Lemma collapse_get_none (qp : Dict.t param) (q : Dict.t value) (k : string) :
  mapM collapse_item qp = Ok q -> Dict.get qp k = None -> Dict.get q k = None.
Proof.
  revert q. induction qp as [|[k' v'] qp IH]; intros q Hq Hget; cbn [mapM] in Hq.
  - now injection Hq as <-.
  - cbn [Dict.get] in Hget.
    destruct (collapse_item (k', v')) as [kv|] eqn:Hc; cbn [bind] in Hq; [|discriminate].
    destruct (mapM collapse_item qp) as [q'|] eqn:Hq'; cbn [bind] in Hq; [|discriminate].
    injection Hq as <-.
    assert (fst kv = k') as Hk.
    { unfold collapse_item in Hc. cbn [snd fst] in Hc.
      destruct v' as [s|[|x l]]; try discriminate; now injection Hc as <-. }
    destruct kv as [k0 v0]. cbn [fst] in Hk. subst k0. cbn [Dict.get].
    destruct (String.eqb k' k); [discriminate|]. now apply (IH q').
Qed.

(** After the second loop no value is [None], so [urlencode] cannot raise:
    its result is the join of the encoded pairs. *)
Lemma urlencode_drop_none (d : Dict.t value) :
  Url.urlencode (drop_none d) =
    Ok (PyStr.join "&"
          (map (fun kv => Url.encode_pair (fst kv) (str_value (snd kv))) (drop_none d))).
Proof.
  unfold Url.urlencode.
  assert (mapM Url.encode_item (drop_none d) =
          Ok (map (fun kv => Url.encode_pair (fst kv) (str_value (snd kv))) (drop_none d)))
    as ->; [|reflexivity].
  induction d as [|[k v] d IH]; [reflexivity|].
  cbn [drop_none filter snd].
  destruct v; cbn [is_none negb]; try exact IH;
    cbn [mapM map Url.encode_item snd fst bind str_value];
    fold (drop_none d); now rewrite IH.
Qed.

Lemma final_query_url (qp : Dict.t param) (ov q : Dict.t value) :
  final_query qp ov = Ok q ->
  get_url_with_query_params qp ov =
    Ok ("?" ++ PyStr.join "&"
                 (map (fun kv => Url.encode_pair (fst kv) (str_value (snd kv))) q)).
Proof.
  intros Hq. unfold get_url_with_query_params. rewrite Hq. cbn [bind].
  unfold final_query in Hq.
  destruct (mapM collapse_item qp) as [q0|]; cbn [bind] in Hq; [|discriminate].
  injection Hq as <-. now rewrite urlencode_drop_none.
Qed.

Lemma final_query_succeeds (qp : Dict.t param) (ov : Dict.t value) :
  no_empty_list qp -> exists q, final_query qp ov = Ok q.
Proof.
  intros Hne. destruct (collapse_succeeds qp Hne) as [q0 Hq0].
  unfold final_query. rewrite Hq0. cbn [bind]. now eexists.
Qed.

Lemma get_url_succeeds (qp : Dict.t param) (ov : Dict.t value) :
  no_empty_list qp -> exists url, get_url_with_query_params qp ov = Ok url.
Proof.
  intros Hne. destruct (final_query_succeeds qp ov Hne) as [q Hq].
  rewrite (final_query_url _ _ _ Hq). now eexists.
Qed.

Lemma get_url_final_query (qp : Dict.t param) (ov : Dict.t value) (url : string) :
  get_url_with_query_params qp ov = Ok url -> exists q, final_query qp ov = Ok q.
Proof.
  unfold get_url_with_query_params.
  destruct (final_query qp ov) as [q|]; cbn [bind]; [now eexists | discriminate].
Qed.

(** A key of the final dictionary shows in the query string. *)
Lemma final_query_carries (qp : Dict.t param) (ov q : Dict.t value)
    (url k : string) (v : value) :
  final_query qp ov = Ok q -> get_url_with_query_params qp ov = Ok url ->
  Dict.get q k = Some v -> carries url k (str_value v).
Proof.
  intros Hq Hurl Hget. rewrite (final_query_url _ _ _ Hq) in Hurl.
  injection Hurl as <-. eexists. split; [reflexivity|].
  apply get_In in Hget.
  apply (in_map (fun kv => Url.encode_pair (fst kv) (str_value (snd kv)))) in Hget.
  exact Hget.
Qed.

(** The value of an overridden key in the final dictionary. *)
Lemma final_query_override (qp : Dict.t param) (q : Dict.t value)
    (p : string) (v : value) :
  final_query qp [(p, v)] = Ok q -> v <> VNone -> Dict.get q p = Some v.
Proof.
  unfold final_query. intros Hq Hv.
  destruct (mapM collapse_item qp) as [q0|]; cbn [bind] in Hq; [|discriminate].
  injection Hq as <-. apply get_drop_none; [|assumption]. apply get_update_single.
Qed.

Lemma override_carries (qp : Dict.t param) (p url : string) (v : value) :
  get_url_with_query_params qp [(p, v)] = Ok url -> v <> VNone ->
  carries url p (str_value v).
Proof.
  intros Hurl Hv. destruct (get_url_final_query _ _ _ Hurl) as [q Hq].
  apply (final_query_carries _ _ _ _ _ _ Hq Hurl).
  now apply (final_query_override _ _ _ _ Hq).
Qed.

(** An integer override and its decimal string give the same query string. *)
Lemma get_url_int_str (qp : Dict.t param) (p : string) (n : N) :
  get_url_with_query_params qp [(p, VInt (Z.of_N n))] =
  get_url_with_query_params qp [(p, VStr (PyStr.of_N n))].
Proof.
  unfold get_url_with_query_params, final_query.
  destruct (mapM collapse_item qp) as [q0|]; cbn [bind]; [|reflexivity].
  rewrite !urlencode_drop_none. do 3 f_equal.
  unfold Dict.update. cbn [fold_left fst snd].
  induction q0 as [|[k v] q0 IH]; cbn [Dict.set].
  - cbn [drop_none filter snd is_none negb map fst str_value].
    now rewrite of_Z_of_N.
  - destruct (String.eqb k p).
    + cbn [drop_none filter snd is_none negb map fst str_value].
      now rewrite of_Z_of_N.
    + cbn [drop_none filter snd]. fold (drop_none (Dict.set q0 p (VInt (Z.of_N n)))).
      fold (drop_none (Dict.set q0 p (VStr (PyStr.of_N n)))).
      destruct (negb (is_none v)); cbn [map]; now rewrite IH.
Qed.

End CodecFacts.

(* ================================================================== *)
(** * The sort links *)

Section SortLinks.

Import PyStr Token SmartOrder.

Lemma order_split_render (items : list item) :
  items <> [] ->
  order_split (Some (Single (render_token items))) = Ok (map render_item items).
Proof. intros H. cbn [order_split]. now rewrite split_render_token. Qed.

Lemma is_ordered_mk qp c p qo (cols : list N) n :
  In c cols -> is_ordered (mk qp c p qo cols n) = true.
Proof. intros H. unfold is_ordered. cbn. now apply is_ordered_ids. Qed.

Lemma In_ids_nonempty (c : N) (items : list item) : In c (ids items) -> items <> [].
Proof. destruct items; [contradiction | discriminate]. Qed.

(** What [get_remove_sort_by] returns on a rendered token. *)
Lemma remove_on_token qp c p (items : list item) n :
  items <> [] ->
  get_remove_sort_by (mk qp c p (Some (Single (render_token items))) (ids items) n) =
    get_url_with_query_params qp [(p, VStr (render_token (remove_column c items)))].
Proof.
  intros Hne. unfold get_remove_sort_by. cbn [query_order column_id query_params
    ordering_query_param].
  rewrite order_split_render by assumption. cbn [bind].
  rewrite remove_loop_render. reflexivity.
Qed.

(** What [get_reverse_sort_by] returns on a rendered token. *)
Lemma reverse_on_token qp c p (items : list item) n :
  items <> [] ->
  get_reverse_sort_by (mk qp c p (Some (Single (render_token items))) (ids items) n) =
    get_url_with_query_params qp [(p, VStr (render_token (toggle c items)))].
Proof.
  intros Hne. unfold get_reverse_sort_by. cbn [query_order column_id query_params
    ordering_query_param].
  rewrite order_split_render by assumption. cbn [bind].
  rewrite reverse_loop_render. reflexivity.
Qed.

(** C1: on a well-formed token (distinct ids) with more than one column that
    contains [column_id], [get_add_sort_by] builds the link whose sort token
    is [promote column_id items]: the column is taken out of its place and
    put first, the other columns keep their order, and the new first
    element is descending exactly when the column was the first one and was
    ascending. *)
Theorem add_sort_by_promotes (qp : Dict.t param) (p : string) (c : N)
    (items : list item) :
  Dict.get qp p = Some (Single (render_token items)) ->
  NoDup (ids items) ->
  1 < List.length items ->
  In c (ids items) ->
  exists so,
    init qp c p = Ok so /\
    get_add_sort_by so =
      get_url_with_query_params qp [(p, VStr (render_token (promote c items)))].
Proof.
  intros Hget Hnd Hlen Hin.
  pose proof (In_ids_nonempty _ _ Hin) as Hne.
  eexists. split; [now apply (init_render_token qp c p items)|].
  unfold get_add_sort_by.
  rewrite is_ordered_mk by assumption. cbn [negb].
  cbn [current_columns_length query_order column_id query_params ordering_query_param].
  apply Nat.ltb_lt in Hlen. rewrite Hlen.
  rewrite order_split_render by assumption. cbn [bind].
  rewrite remove_loop_render. cbn [bind].
  unfold is_reverse. cbn [query_order column_id].
  rewrite order_split_render by assumption. cbn [bind].
  rewrite is_reverse_loop_render. cbn [bind].
  pose proof (not_reversed_primary c items Hnd) as Hflag.
  assert (remove_column c items <> []) as Hrest.
  { pose proof (remove_column_length c items Hnd Hin) as HL.
    apply Nat.ltb_lt in Hlen. intros E. rewrite E in HL. cbn in HL. lia. }
  unfold promote. rewrite render_token_cons by assumption.
  unfold first_is. cbn [current_columns column_id].
  destruct (ids items) as [|x xs] eqn:Hids.
  { destruct items; [congruence | discriminate]. }
  destruct (existsb (fun it => (fst it =? c)%N && snd it) items);
    cbn [negb andb bind] in *.
  - rewrite <- Hflag. reflexivity.
  - rewrite <- Hflag. destruct (x =? c)%N; reflexivity.
Qed.

Lemma add_sort_by_promotes_witness :
  Dict.get [("o", Single "1.-2")] "o" =
    Some (Single (render_token [(1%N, false); (2%N, true)])) /\
  NoDup (ids [(1%N, false); (2%N, true)]) /\
  1 < List.length [(1%N, false); (2%N, true)] /\
  In 1%N (ids [(1%N, false); (2%N, true)]) /\
  exists so,
    init [("o", Single "1.-2")] 1 "o" = Ok so /\
    get_add_sort_by so = Ok "?o=-1.-2".
Proof.
  assert (NoDup (ids [(1%N, false); (2%N, true)])) as Hnd.
  { repeat constructor; cbn; intuition discriminate. }
  repeat split.
  - exact Hnd.
  - cbn; lia.
  - cbn; auto.
  - destruct (add_sort_by_promotes [("o", Single "1.-2")] "o" 1
                [(1%N, false); (2%N, true)]) as [so [Hi Ha]].
    + reflexivity.
    + exact Hnd.
    + cbn; lia.
    + cbn; auto.
    + exists so. split; [exact Hi | rewrite Ha; reflexivity].
Defined.

(** The two scenarios of C1, by running the code. *)
Example scenario_4_primary_ascending :
  (so <- init [("o", Single "1.-2")] 1 "o" ;; get_add_sort_by so) = Ok "?o=-1.-2".
Proof. reflexivity. Qed.

Example scenario_3_secondary_descending :
  (so <- init [("o", Single "2.-1")] 1 "o" ;; get_add_sort_by so) = Ok "?o=1.2".
Proof. reflexivity. Qed.

(** C2: on a token that consists of the one column [column_id],
    [get_add_sort_by] takes the last branch and is [get_reverse_sort_by]:
    ["N"] becomes ["-N"] and ["-N"] becomes ["N"]. *)
Theorem add_on_only_column_is_reverse (qp : Dict.t param) (p : string) (c : N)
    (d : bool) :
  Dict.get qp p = Some (Single (render_item (c, d))) ->
  exists so,
    init qp c p = Ok so /\
    is_ordered so = true /\
    current_columns_length so = 1 /\
    get_add_sort_by so = get_reverse_sort_by so /\
    get_reverse_sort_by so =
      get_url_with_query_params qp [(p, VStr (render_item (c, negb d)))].
Proof.
  intros Hget.
  change (render_item (c, d)) with (render_token [(c, d)]) in Hget.
  eexists. split; [apply (init_render_token qp c p [(c, d)]); [exact Hget | discriminate]|].
  match goal with
  | |- is_ordered ?s = true /\ _ =>
      assert (is_ordered s = true) as Hord by (apply is_ordered_mk; now left)
  end.
  split; [exact Hord|]. split; [reflexivity|]. split.
  - unfold get_add_sort_by. rewrite Hord. reflexivity.
  - rewrite reverse_on_token by discriminate.
    cbn [toggle map fst snd]. rewrite N.eqb_refl. reflexivity.
Qed.

Lemma add_on_only_column_is_reverse_witness :
  Dict.get [("o", Single "-7")] "o" = Some (Single (render_item (7%N, true))) /\
  exists so,
    init [("o", Single "-7")] 7 "o" = Ok so /\
    get_add_sort_by so = Ok "?o=7".
Proof.
  split; [reflexivity|].
  destruct (add_on_only_column_is_reverse [("o", Single "-7")] "o" 7 true eq_refl)
    as [so [Hi [_ [_ [Ha Hr]]]]].
  exists so. split; [exact Hi | rewrite Ha, Hr; reflexivity].
Defined.

Example scenario_2_only_column :
  (so <- init [("o", Single "1")] 1 "o" ;; get_add_sort_by so) = Ok "?o=-1".
Proof. reflexivity. Qed.

Lemma init_fields (qp : Dict.t param) (c : N) (p : string) (so : SmartOrder.t) :
  init qp c p = Ok so ->
  query_params so = qp /\ column_id so = c /\ ordering_query_param so = p /\
  query_order so = Dict.get qp p /\
  parse_columns (Dict.get qp p) = Ok (current_columns so).
Proof.
  unfold init. destruct (parse_columns (Dict.get qp p)) as [cols|]; cbn [bind];
    [|discriminate].
  intros [= <-]. cbn. auto.
Qed.

(** C3: when [column_id] is not among the current columns, [get_add_sort_by]
    puts [column_id], ascending, in front of the existing token; when there
    is no token (the parameter is absent or empty) the token is [column_id]
    alone. *)
Theorem add_sort_by_prepends (qp : Dict.t param) (c : N) (p : string)
    (so : SmartOrder.t) :
  init qp c p = Ok so ->
  is_ordered so = false ->
  (forall t, Dict.get qp p = Some (Single t) -> truthy t = true ->
     get_add_sort_by so =
       get_url_with_query_params qp [(p, VStr (of_N c ++ "." ++ t))]) /\
  (forall items, items <> [] -> Dict.get qp p = Some (Single (render_token items)) ->
     get_add_sort_by so =
       get_url_with_query_params qp [(p, VStr (render_token ((c, false) :: items)))]) /\
  (Dict.get qp p = None \/ Dict.get qp p = Some (Single "") ->
     get_add_sort_by so = get_url_with_query_params qp [(p, VStr (of_N c))]).
Proof.
  intros Hinit Hord.
  destruct (init_fields _ _ _ _ Hinit) as (Hqp & Hc & Hp & Hqo & _).
  assert (forall t, Dict.get qp p = Some (Single t) -> truthy t = true ->
     get_add_sort_by so =
       get_url_with_query_params qp [(p, VStr (of_N c ++ "." ++ t))]) as Hpre.
  { intros t Ht Htruthy. unfold get_add_sort_by.
    rewrite Hord, Hqo, Ht, Htruthy, Hqp, Hc, Hp. reflexivity. }
  split; [exact Hpre|]. split.
  - intros items Hne Ht. rewrite render_token_cons by assumption.
    apply Hpre; [assumption | now apply render_token_truthy].
  - intros Hnone. rewrite <- get_url_int_str. unfold get_add_sort_by.
    rewrite Hord, Hqo, Hqp, Hc, Hp.
    destruct Hnone as [-> | ->]; reflexivity.
Qed.

Lemma add_sort_by_prepends_witness :
  exists so,
    init [("o", Single "2.-3")] 1 "o" = Ok so /\
    is_ordered so = false /\
    get_add_sort_by so = Ok "?o=1.2.-3".
Proof.
  exists (mk [("o", Single "2.-3")] 1 "o" (Some (Single "2.-3")) [2%N; 3%N] 2).
  split; [reflexivity|]. split; [reflexivity|].
  destruct (add_sort_by_prepends [("o", Single "2.-3")] 1 "o"
              (mk [("o", Single "2.-3")] 1 "o" (Some (Single "2.-3")) [2%N; 3%N] 2)
              eq_refl eq_refl) as [H _].
  rewrite (H "2.-3" eq_refl eq_refl). reflexivity.
Defined.

Example scenario_1_empty_token :
  (so <- init [("o", Single "")] 1 "o" ;; get_add_sort_by so) = Ok "?o=1" /\
  (so <- init [] 1 "o" ;; get_add_sort_by so) = Ok "?o=1".
Proof. split; reflexivity. Qed.

(** C4: on a well-formed token that contains [column_id],
    [get_reverse_sort_by] builds the link whose sort token is
    [toggle column_id items]: the element of [column_id] changes sign, every
    other element and the order stay; on the token so obtained it gives
    back the original token. *)
Theorem reverse_sort_by_toggles (qp : Dict.t param) (p : string) (c : N)
    (items : list item) :
  Dict.get qp p = Some (Single (render_token items)) ->
  In c (ids items) ->
  (exists so,
     init qp c p = Ok so /\
     get_reverse_sort_by so =
       get_url_with_query_params qp [(p, VStr (render_token (toggle c items)))]) /\
  Forall2 (fun old new =>
             fst new = fst old /\
             snd new = (if (fst old =? c)%N then negb (snd old) else snd old))
          items (toggle c items) /\
  (forall qp',
     Dict.get qp' p = Some (Single (render_token (toggle c items))) ->
     exists so',
       init qp' c p = Ok so' /\
       get_reverse_sort_by so' =
         get_url_with_query_params qp' [(p, VStr (render_token items))]).
Proof.
  intros Hget Hin. pose proof (In_ids_nonempty _ _ Hin) as Hne.
  assert (toggle c items <> []) as Hne'.
  { destruct items; [congruence | discriminate]. }
  split; [|split].
  - eexists. split; [now apply (init_render_token qp c p items)|].
    now apply reverse_on_token.
  - clear. induction items as [|[n d] items IH]; [constructor|].
    cbn [toggle map]. constructor; [|exact IH].
    cbn [fst snd]. destruct (n =? c)%N; auto.
  - intros qp' Hget'. eexists.
    split; [now apply (init_render_token qp' c p (toggle c items))|].
    rewrite reverse_on_token by assumption. now rewrite toggle_involutive.
Qed.

Lemma reverse_sort_by_toggles_witness :
  Dict.get [("o", Single "1.-2.3")] "o" =
    Some (Single (render_token [(1%N, false); (2%N, true); (3%N, false)])) /\
  In 2%N (ids [(1%N, false); (2%N, true); (3%N, false)]) /\
  exists so,
    init [("o", Single "1.-2.3")] 2 "o" = Ok so /\
    get_reverse_sort_by so = Ok "?o=1.2.3".
Proof.
  split; [reflexivity|]. split; [cbn; auto|].
  destruct (reverse_sort_by_toggles [("o", Single "1.-2.3")] "o" 2
              [(1%N, false); (2%N, true); (3%N, false)] eq_refl)
    as [[so [Hi Hr]] _].
  - cbn; auto.
  - exists so. split; [exact Hi | rewrite Hr; reflexivity].
Defined.

(** The only way to cut ["o="] into segments. *)
Lemma join_amp_o_eq (segs : list string) :
  join "&" segs = "o=" -> segs = ["o="].
Proof.
  destruct segs as [|x [|y l]].
  - discriminate.
  - cbn. now intros ->.
  - rewrite join_cons2. intros H. exfalso.
    destruct x as [|a [|b [|b' x]]]; cbn in H; discriminate H.
Qed.

(** C5, as stated, fails: removing the only column of ["1"] leaves the sort
    parameter in the query string, with an empty value. *)
Lemma remove_only_column_keeps_param :
  exists so,
    init [("o", Single "1")] 1 "o" = Ok so /\
    remove_column 1 [(1%N, false)] = [] /\
    get_remove_sort_by so = Ok "?o=" /\
    ~ param_absent "?o=" "o".
Proof.
  eexists. split; [reflexivity|]. split; [reflexivity|]. split; [reflexivity|].
  intros [segs [Hurl Habs]]. injection Hurl as Hj. symmetry in Hj.
  apply join_amp_o_eq in Hj. subst segs.
  apply (Habs ""). now left.
Qed.

(** C5 (amended): on a well-formed token that contains [column_id],
    [get_remove_sort_by] builds the link whose sort token is the token
    without the element of [column_id], the others in their order; the link
    always carries the sort parameter, with the empty string as its value
    when nothing remains. *)
Theorem remove_sort_by_strips (qp : Dict.t param) (p : string) (c : N)
    (items : list item) :
  Dict.get qp p = Some (Single (render_token items)) ->
  In c (ids items) ->
  exists so,
    init qp c p = Ok so /\
    get_remove_sort_by so =
      get_url_with_query_params qp [(p, VStr (render_token (remove_column c items)))] /\
    (forall url, get_remove_sort_by so = Ok url ->
       carries url p (render_token (remove_column c items))) /\
    (remove_column c items = [] ->
       get_remove_sort_by so = get_url_with_query_params qp [(p, VStr "")]).
Proof.
  intros Hget Hin. pose proof (In_ids_nonempty _ _ Hin) as Hne.
  eexists. split; [now apply (init_render_token qp c p items)|].
  rewrite remove_on_token by assumption.
  split; [reflexivity|]. split.
  - intros url Hurl.
    apply (override_carries qp p url (VStr (render_token (remove_column c items))));
      [assumption | discriminate].
  - now intros ->.
Qed.

Lemma remove_sort_by_strips_witness :
  Dict.get [("o", Single "1.-2.3")] "o" =
    Some (Single (render_token [(1%N, false); (2%N, true); (3%N, false)])) /\
  In 2%N (ids [(1%N, false); (2%N, true); (3%N, false)]) /\
  exists so,
    init [("o", Single "1.-2.3")] 2 "o" = Ok so /\
    get_remove_sort_by so = Ok "?o=1.3".
Proof.
  split; [reflexivity|]. split; [cbn; auto|].
  destruct (remove_sort_by_strips [("o", Single "1.-2.3")] "o" 2
              [(1%N, false); (2%N, true); (3%N, false)] eq_refl)
    as [so [Hi [Hr _]]].
  - cbn; auto.
  - exists so. split; [exact Hi | rewrite Hr; reflexivity].
Defined.

Example scenario_5_remove_middle :
  (so <- init [("o", Single "1.-2.3")] 2 "o" ;; get_remove_sort_by so) = Ok "?o=1.3".
Proof. reflexivity. Qed.

End SortLinks.

(* ================================================================== *)
(** * The empty sort state *)

Section EmptySortState.

Import PyStr Token SmartOrder.

(** C10, as stated, fails: with the sort parameter absent, [get_add_sort_by]
    still raises when another parameter holds an empty list. *)
Lemma add_on_empty_state_can_raise :
  exists so,
    init [("page", Multi [])] 1 "o" = Ok so /\
    Dict.get [("page", Multi [])] "o" = None /\
    get_add_sort_by so = Raise IndexError /\
    ~ succeeds (get_add_sort_by so).
Proof.
  eexists. split; [reflexivity|]. split; [reflexivity|]. split; [reflexivity|].
  intros [url H]. discriminate H.
Qed.

(** C10 (amended): when the sort parameter is absent or is the empty string,
    [get_remove_sort_by] and [get_reverse_sort_by] raise, and
    [get_add_sort_by] returns what the codec returns for the override
    [{sort parameter: column_id}]; when no value of the mapping is an empty
    list this is a query string that carries [column_id] alone as the sort
    token. *)
Theorem empty_sort_state (qp : Dict.t param) (c : N) (p : string) :
  (Dict.get qp p = None \/ Dict.get qp p = Some (Single "")) ->
  exists so,
    init qp c p = Ok so /\
    fails (get_remove_sort_by so) /\
    fails (get_reverse_sort_by so) /\
    get_add_sort_by so = get_url_with_query_params qp [(p, VInt (Z.of_N c))] /\
    (no_empty_list qp ->
       exists url, get_add_sort_by so = Ok url /\ carries url p (of_N c)).
Proof.
  intros Hqo.
  assert (exists so, init qp c p = Ok so /\ current_columns so = [] /\
                     (query_order so = None \/ query_order so = Some (Single "")))
    as [so [Hinit [Hcols Hq]]].
  { unfold init. destruct Hqo as [-> | ->]; cbn; eexists; eauto. }
  destruct (init_fields _ _ _ _ Hinit) as (Hqp & Hc & Hp & _ & _).
  assert (get_add_sort_by so = get_url_with_query_params qp [(p, VInt (Z.of_N c))])
    as Hadd.
  { unfold get_add_sort_by, is_ordered. rewrite Hcols, Hqp, Hc, Hp. cbn [existsb negb].
    destruct Hq as [-> | ->]; reflexivity. }
  exists so. split; [exact Hinit|]. split; [|split; [|split; [exact Hadd|]]].
  - unfold get_remove_sort_by. destruct Hq as [-> | ->]; cbn; eexists; reflexivity.
  - unfold get_reverse_sort_by. destruct Hq as [-> | ->]; cbn; eexists; reflexivity.
  - intros Hne. rewrite Hadd.
    destruct (get_url_succeeds qp [(p, VInt (Z.of_N c))] Hne) as [url Hurl].
    exists url. split; [exact Hurl|].
    rewrite <- of_Z_of_N.
    apply (override_carries qp p url (VInt (Z.of_N c))); [assumption | discriminate].
Qed.

Lemma empty_sort_state_witness :
  (Dict.get [("page", Single "2")] "o" = None \/
   Dict.get [("page", Single "2")] "o" = Some (Single "")) /\
  exists so,
    init [("page", Single "2")] 1 "o" = Ok so /\
    fails (get_remove_sort_by so) /\
    fails (get_reverse_sort_by so) /\
    get_add_sort_by so = Ok "?page=2&o=1".
Proof.
  split; [left; reflexivity|].
  destruct (empty_sort_state [("page", Single "2")] 1 "o" (or_introl eq_refl))
    as [so [Hi [Hrm [Hrv [Ha _]]]]].
  exists so. split; [exact Hi|]. split; [exact Hrm|]. split; [exact Hrv|].
  rewrite Ha. reflexivity.
Defined.

End EmptySortState.

(* ================================================================== *)
(** * The query-string codec *)

Section Codec.

(** C6, as stated, fails: a mapping with an empty list makes the codec raise. *)
Lemma codec_raises_on_empty_list :
  get_url_with_query_params [("page", Multi [])] [] = Raise IndexError /\
  ~ succeeds (get_url_with_query_params [("page", Multi [])] []).
Proof.
  split; [reflexivity|]. intros [url H]. discriminate H.
Qed.

(** An empty list anywhere in the mapping makes the first loop raise. *)
Lemma codec_raises_with_empty_list (qp : Dict.t param) (ov : Dict.t value) (k : string) :
  In (k, Multi []) qp -> get_url_with_query_params qp ov = Raise IndexError.
Proof.
  intros Hin. unfold get_url_with_query_params, final_query.
  assert (mapM collapse_item qp = Raise IndexError) as ->; [|reflexivity].
  induction qp as [|[k' v'] qp IH]; [contradiction|].
  cbn [mapM]. destruct Hin as [[= -> ->] | Hin]; [reflexivity|].
  destruct (collapse_item (k', v')) as [kv|e] eqn:Hc; cbn [bind].
  - rewrite (IH Hin). reflexivity.
  - unfold collapse_item in Hc. cbn in Hc.
    destruct v' as [s|[|x l]]; try discriminate. now injection Hc as <-.
Qed.

(** C6 (amended): the codec returns a query string for every mapping in
    which no value is an empty list, and for every overrides mapping. *)
Theorem codec_total_without_empty_lists (qp : Dict.t param) (ov : Dict.t value) :
  no_empty_list qp -> succeeds (get_url_with_query_params qp ov).
Proof.
  intros Hne.
  destruct (collapse_succeeds qp Hne) as [q0 Hq0].
  unfold succeeds, get_url_with_query_params, final_query.
  rewrite Hq0. cbn [bind].
  rewrite urlencode_drop_none. cbn [bind].
  eexists. reflexivity.
Qed.

Lemma codec_total_without_empty_lists_witness :
  no_empty_list [("page", Multi ["2"; "3"]); ("q", Single "a b")] /\
  succeeds (get_url_with_query_params
              [("page", Multi ["2"; "3"]); ("q", Single "a b")]
              [("q", VNone); ("o", VInt 1)]).
Proof.
  assert (no_empty_list [("page", Multi ["2"; "3"]); ("q", Single "a b")]) as H.
  { intros k [E | [E | []]]; discriminate E. }
  split; [exact H|].
  exact (codec_total_without_empty_lists _ [("q", VNone); ("o", VInt 1)] H).
Defined.

(** C7: a key of the current mapping that the overrides do not name is in
    the query string the codec produces, with its value, or with the first
    element of its value when that is a list. *)
Theorem codec_keeps_other_keys (qp : Dict.t param) (ov : Dict.t value)
    (k : string) (v : param) :
  Dict.get qp k = Some v ->
  Dict.get ov k = None ->
  (no_empty_list qp -> succeeds (get_url_with_query_params qp ov)) /\
  (forall url, get_url_with_query_params qp ov = Ok url ->
     exists x, first_value v = Some x /\ carries url k x).
Proof.
  intros Hget Hov. split; [apply get_url_succeeds|].
  intros url Hurl.
  destruct (get_url_final_query _ _ _ Hurl) as [q Hq].
  pose proof Hq as Hq'. unfold final_query in Hq'.
  destruct (mapM collapse_item qp) as [q0|] eqn:Hq0; cbn [bind] in Hq'; [|discriminate].
  injection Hq' as Hq'.
  destruct (collapse_get _ _ _ _ Hq0 Hget) as [x [Hx Hgx]].
  exists x. split; [exact Hx|].
  apply (final_query_carries _ _ _ _ _ (VStr x) Hq Hurl).
  rewrite <- Hq'. apply get_drop_none; [|discriminate].
  now rewrite get_update_other.
Qed.

Lemma codec_keeps_other_keys_witness :
  Dict.get [("page", Multi ["2"; "3"]); ("q", Single "a b")] "page"
    = Some (Multi ["2"; "3"]) /\
  Dict.get [("q", VNone); ("o", VInt 1)] "page" = None /\
  get_url_with_query_params [("page", Multi ["2"; "3"]); ("q", Single "a b")]
    [("q", VNone); ("o", VInt 1)] = Ok "?page=2&o=1" /\
  exists x, first_value (Multi ["2"; "3"]) = Some x /\ carries "?page=2&o=1" "page" x.
Proof.
  split; [reflexivity|]. split; [reflexivity|]. split; [reflexivity|].
  exact (proj2 (codec_keeps_other_keys
                  [("page", Multi ["2"; "3"]); ("q", Single "a b")]
                  [("q", VNone); ("o", VInt 1)] "page" (Multi ["2"; "3"])
                  eq_refl eq_refl) "?page=2&o=1" eq_refl).
Defined.

Example codec_quotes :
  get_url_with_query_params [("a b", Single "x&y=z/~"); ("n", Multi ["1"; "2"])]
    [("m", VInt (-5)); ("n", VNone)] = Ok "?a+b=x%26y%3Dz%2F~&m=-5".
Proof. reflexivity. Qed.

End Codec.

(* ================================================================== *)
(** * Filter options *)

Section FilterOptions.

Import SmartFilter.

(** C8: what the code does on scenario 6.  The stored parameter is the
    string ["2"], the value of the option "Closed" is the integer [2], and
    [==] between them is false: no option is active. *)
Theorem scenario_6_no_option_active :
  exists f,
    init status_meta (Name "status") [("status", Single "2")] = Ok f /\
    map (fun o => (SmartFilterValue.label o, SmartFilterValue.is_active o))
        (get_values f)
    = [("All", Ok false); ("Open", Ok false); ("Closed", Ok false)].
Proof. eexists. split; reflexivity. Qed.

(** The foreign-key branch passes [str(obj.pk)], and there the option whose
    key is [2] is active on the same query parameters. *)
Example foreign_key_option_active :
  map (fun o => (SmartFilterValue.label o, SmartFilterValue.is_active o))
      (get_values (mk "status" (Field [] (ForeignKey [("Open", VInt 1); ("Closed", VInt 2)]))
                      [("status", Single "2")]))
  = [("All", Ok false); ("Open", Ok false); ("Closed", Ok true)].
Proof. reflexivity. Qed.

(** C9: the first option of every filter is the "All" option, with the
    filter's parameter name and the value [None]; it is active exactly when
    that parameter is absent from the query parameters. *)
Theorem all_option_first (f : SmartFilter.t) :
  exists all rest,
    get_values f = all :: rest /\
    SmartFilterValue.label all = "All" /\
    SmartFilterValue.value_ all = VNone /\
    SmartFilterValue.field_name all = field_name f /\
    SmartFilterValue.query_params all = query_params f /\
    (SmartFilterValue.is_active all = Ok true <->
     Dict.get (query_params f) (field_name f) = None).
Proof.
  eexists. eexists. split; [reflexivity|]. cbn.
  split; [reflexivity|]. split; [reflexivity|]. split; [reflexivity|].
  split; [reflexivity|].
  unfold SmartFilterValue.is_active. cbn.
  destruct (Dict.get (query_params f) (field_name f)) as [[s|[|x l]]|]; cbn;
    split; intros H; try discriminate H; reflexivity.
Qed.

(** The parameter name of a custom filter is the option's field name. *)
Lemma init_custom_field_name meta pn title lookups qp :
  exists f, init meta (Custom pn title lookups) qp = Ok f /\
            field_name f = pn /\ query_params f = qp.
Proof. eexists. split; [reflexivity|]. split; reflexivity. Qed.

End FilterOptions.

(* ================================================================== *)
(** * More on the sort state: parsing, totality, composition *)

Section SortStateFacts.

Import Chars PyStr Token SmartOrder.

Lemma split_nonempty (sep : ascii) (s : string) : split sep s <> [].
Proof.
  induction s as [|a s IH]; cbn [split]; [discriminate|].
  destruct (Ascii.eqb a sep); [discriminate|].
  destruct (split sep s); [congruence | discriminate].
Qed.

(** Removing a character that is not the separator commutes with [split]. *)
Lemma split_remove_char (c sep : ascii) (s : string) :
  c <> sep ->
  split sep (remove_char c s) = map (remove_char c) (split sep s).
Proof.
  intros Hne. induction s as [|a s IH]; [reflexivity|].
  cbn [remove_char split].
  destruct (Ascii.eqb_spec a c) as [->|Hac].
  - assert (Ascii.eqb c sep = false) as -> by now apply Ascii.eqb_neq.
    rewrite IH. pose proof (split_nonempty sep s) as Hs.
    destruct (split sep s) as [|x xs]; [congruence|].
    cbn [map remove_char]. now rewrite Ascii.eqb_refl.
  - cbn [split]. destruct (Ascii.eqb a sep) eqn:Eas.
    + now rewrite IH.
    + rewrite IH. pose proof (split_nonempty sep s) as Hs.
      destruct (split sep s) as [|x xs]; [congruence|].
      cbn [map remove_char].
      assert (Ascii.eqb a c = false) as -> by now apply Ascii.eqb_neq.
      reflexivity.
Qed.

Lemma mapM_map {A B C : Type} (f : B -> result C) (g : A -> B) (l : list A) :
  mapM f (map g l) = mapM (fun x => f (g x)) l.
Proof.
  induction l as [|x l IH]; [reflexivity|]. cbn [map mapM]. now rewrite IH.
Qed.

Lemma mapM_length {A B : Type} (f : A -> result B) (l : list A) (ys : list B) :
  mapM f l = Ok ys -> List.length ys = List.length l.
Proof.
  revert ys. induction l as [|x l IH]; intros ys; cbn [mapM].
  - now intros [= <-].
  - destruct (f x); cbn [bind]; [|discriminate].
    destruct (mapM f l); cbn [bind]; [|discriminate].
    intros [= <-]. cbn. f_equal. now apply IH.
Qed.

(** [int] can only raise [ValueError]; so does the comprehension. *)
Lemma mapM_int_raises (l : list string) (x : string) :
  In x l -> int x = Raise ValueError -> mapM int l = Raise ValueError.
Proof.
  induction l as [|y l IH]; [contradiction|].
  intros [->|Hin] Hx; cbn [mapM].
  - now rewrite Hx.
  - destruct (int y) as [n|e] eqn:Hy; cbn [bind].
    + now rewrite (IH Hin Hx).
    + unfold int in Hy. destruct (NilZero.uint_of_string y); [discriminate|].
      now injection Hy as <-.
Qed.

Lemma init_parsed (qp : Dict.t param) (c : N) (p t : string) (so : SmartOrder.t) :
  init qp c p = Ok so -> Dict.get qp p = Some (Single t) -> truthy t = true ->
  parsed (split "." t) (current_columns so) /\
  query_order so = Some (Single t) /\ query_params so = qp /\
  column_id so = c /\ ordering_query_param so = p /\
  current_columns_length so = List.length (current_columns so).
Proof.
  unfold init. intros Hinit Hget Ht. rewrite Hget in Hinit.
  cbn [parse_columns] in Hinit. rewrite Ht in Hinit.
  rewrite split_remove_char in Hinit by discriminate.
  rewrite mapM_map in Hinit.
  destruct (mapM _ (split "." t)) as [ns|] eqn:Hns; cbn [bind] in Hinit; [|discriminate].
  injection Hinit as <-. cbn. repeat split; assumption.
Qed.

Lemma remove_loop_parsed (c : N) (cols : list string) (ns : list N) :
  parsed cols ns -> exists out, remove_loop c cols = Ok out.
Proof.
  unfold parsed. revert ns. induction cols as [|col cols IH]; intros ns H.
  - now exists [].
  - cbn [mapM] in H. cbn [remove_loop].
    destruct (int (remove_char "-" col)); cbn [bind] in *; [|discriminate].
    destruct (mapM _ cols) as [ns'|] eqn:E; cbn [bind] in H; [|discriminate].
    destruct (IH ns' eq_refl) as [out ->]. cbn [bind]. now eexists.
Qed.

Lemma reverse_loop_parsed (c : N) (cols : list string) (ns : list N) :
  parsed cols ns -> exists out, reverse_loop c cols = Ok out.
Proof.
  unfold parsed. revert ns. induction cols as [|col cols IH]; intros ns H.
  - now exists [].
  - cbn [mapM] in H. cbn [reverse_loop].
    destruct (int (remove_char "-" col)); cbn [bind] in *; [|discriminate].
    destruct (mapM _ cols) as [ns'|] eqn:E; cbn [bind] in H; [|discriminate].
    destruct (IH ns' eq_refl) as [out ->]. cbn [bind]. now eexists.
Qed.

Lemma is_reverse_loop_parsed (c : N) (cols : list string) (ns : list N) :
  parsed cols ns -> exists b, is_reverse_loop c cols = Ok b.
Proof.
  unfold parsed. revert ns. induction cols as [|col cols IH]; intros ns H.
  - now exists false.
  - cbn [mapM] in H. cbn [is_reverse_loop].
    destruct (int (remove_char "-" col)) as [n|]; cbn [bind] in *; [|discriminate].
    destruct (mapM _ cols) as [ns'|] eqn:E; cbn [bind] in H; [|discriminate].
    destruct ((n =? c)%N && startswith "-" col); [now eexists | now apply (IH ns')].
Qed.

Lemma init_malformed_token_aux (qp : Dict.t param) (c : N) (p t seg : string) :
  Dict.get qp p = Some (Single t) ->
  truthy t = true ->
  In seg (split "." (remove_char "-" t)) ->
  int seg = Raise ValueError ->
  init qp c p = Raise ValueError.
Proof.
  intros Hget Ht Hin Hseg. unfold init. rewrite Hget. cbn [parse_columns].
  rewrite Ht. now rewrite (mapM_int_raises _ _ Hin Hseg).
Qed.




(** X2: on a state that [__init__] accepted, with no empty list among the
    query parameters, [get_add_sort_by] always returns a link, and
    [get_remove_sort_by] and [get_reverse_sort_by] return one exactly when
    the sort parameter is a non-empty string. *)
Theorem sort_links_total (qp : Dict.t param) (c : N) (p : string)
    (so : SmartOrder.t) :
  init qp c p = Ok so ->
  no_empty_list qp ->
  succeeds (get_add_sort_by so) /\
  (succeeds (get_remove_sort_by so) <->
     exists t, Dict.get qp p = Some (Single t) /\ truthy t = true) /\
  (succeeds (get_reverse_sort_by so) <->
     exists t, Dict.get qp p = Some (Single t) /\ truthy t = true).
Proof.
  intros Hinit Hne.
  pose proof (fun ov => get_url_succeeds qp ov Hne) as Hurl.
  destruct (init_fields _ _ _ _ Hinit) as (Hqp & Hc & Hp & Hqo & Hcols).
  destruct (Dict.get qp p) as [[t|l]|] eqn:Hget.
  - destruct (truthy t) eqn:Ht.
    + (* a token that parsed *)
      destruct (init_parsed _ _ _ _ _ Hinit Hget Ht) as (Hpar & _ & _ & _ & _ & Hlen).
      destruct (remove_loop_parsed c _ _ Hpar) as [rm Hrm].
      destruct (reverse_loop_parsed c _ _ Hpar) as [rv Hrv].
      destruct (is_reverse_loop_parsed c _ _ Hpar) as [b Hb].
      assert (succeeds (get_remove_sort_by so)) as Hsr.
      { unfold get_remove_sort_by. rewrite Hqo, Hc, Hqp, Hp. cbn [order_split bind].
        rewrite Hrm. cbn [bind]. apply Hurl. }
      assert (succeeds (get_reverse_sort_by so)) as Hsv.
      { unfold get_reverse_sort_by. rewrite Hqo, Hc, Hqp, Hp. cbn [order_split bind].
        rewrite Hrv. cbn [bind]. apply Hurl. }
      split; [|split; split; intros _; try assumption; now exists t].
      unfold get_add_sort_by.
      destruct (negb (is_ordered so)).
      * rewrite Hqo, Ht, Hqp, Hp. apply Hurl.
      * destruct (Nat.ltb 1 (current_columns_length so)) eqn:Hlt; [|exact Hsv].
        unfold is_reverse, first_is. rewrite Hqo, Hc, Hqp, Hp. cbn [order_split bind].
        rewrite Hrm. cbn [bind]. rewrite Hb. cbn [bind].
        apply Nat.ltb_lt in Hlt. rewrite Hlen in Hlt.
        destruct (current_columns so) as [|x xs]; [cbn in Hlt; lia|].
        destruct b; cbn [negb bind andb]; [apply Hurl|].
        destruct (x =? c)%N; apply Hurl.
    + (* the empty string *)
      destruct t; [|discriminate Ht].
      cbn [parse_columns truthy] in Hcols. injection Hcols as Hcols.
      split; [|split; split].
      * unfold get_add_sort_by, is_ordered. rewrite <- Hcols, Hqo, Hqp, Hp.
        cbn [existsb negb truthy]. apply Hurl.
      * unfold get_remove_sort_by. rewrite Hqo. cbn. intros [u Hu]. discriminate Hu.
      * intros [t [[= <-] Ht']]. discriminate Ht'.
      * unfold get_reverse_sort_by. rewrite Hqo. cbn. intros [u Hu]. discriminate Hu.
      * intros [t [[= <-] Ht']]. discriminate Ht'.
  - (* a list: empty lists are excluded, others are refused by [__init__] *)
    destruct l as [|x l]; [|discriminate Hcols].
    exfalso. apply (Hne p). now apply get_In.
  - cbn [parse_columns] in Hcols. injection Hcols as Hcols.
    split; [|split; split].
    + unfold get_add_sort_by, is_ordered. rewrite <- Hcols, Hqo, Hqp, Hp.
      cbn [existsb negb]. apply Hurl.
    + unfold get_remove_sort_by. rewrite Hqo. cbn. intros [u Hu]. discriminate Hu.
    + intros [t [Habs _]]. discriminate Habs.
    + unfold get_reverse_sort_by. rewrite Hqo. cbn. intros [u Hu]. discriminate Hu.
    + intros [t [Habs _]]. discriminate Habs.
Qed.

Lemma sort_links_total_witness :
  no_empty_list [("o", Single "-03.1"); ("page", Multi ["2"])] /\
  exists so,
    init [("o", Single "-03.1"); ("page", Multi ["2"])] 3 "o" = Ok so /\
    succeeds (get_add_sort_by so) /\
    succeeds (get_remove_sort_by so) /\
    succeeds (get_reverse_sort_by so).
Proof.
  assert (no_empty_list [("o", Single "-03.1"); ("page", Multi ["2"])]) as Hne.
  { intros k [E | [E | []]]; discriminate E. }
  split; [exact Hne|].
  eexists. split; [reflexivity|].
  destruct (sort_links_total [("o", Single "-03.1"); ("page", Multi ["2"])] 3 "o"
              _ eq_refl Hne) as [Ha [Hr Hv]].
  split; [exact Ha|]. split.
  - apply Hr. exists "-03.1". split; reflexivity.
  - apply Hv. exists "-03.1". split; reflexivity.
Defined.

Lemma Ok_inj {A : Type} (a b : A) : Ok a = Ok b -> a = b.
Proof. now intros [= ->]. Qed.

Lemma parse_columns_render (items : list item) :
  parse_columns (Some (Single (render_token items))) = Ok (ids items).
Proof.
  destruct items as [|it items]; [reflexivity|].
  cbn [parse_columns].
  now rewrite render_token_truthy, parse_render_token by discriminate.
Qed.

Lemma is_ordered_mk_false qp c p qo (cols : list N) n :
  ~ In c cols -> is_ordered (mk qp c p qo cols n) = false.
Proof.
  intros H. unfold is_ordered. cbn. apply not_true_is_false.
  intros E. now apply is_ordered_ids in E.
Qed.

Lemma remove_column_absent (c : N) (items : list item) :
  ~ In c (ids items) -> remove_column c items = items.
Proof.
  induction items as [|[n d] items IH]; [reflexivity|].
  cbn [ids map fst remove_column filter]. intros H.
  destruct (N.eqb_spec n c) as [->|Hn]; cbn [negb].
  - exfalso. apply H. now left.
  - unfold remove_column in IH. rewrite IH; [reflexivity|].
    intros Hin. apply H. now right.
Qed.

Lemma toggle_absent (c : N) (items : list item) :
  ~ In c (ids items) -> toggle c items = items.
Proof.
  induction items as [|[n d] items IH]; [reflexivity|].
  cbn [ids map fst toggle]. intros H.
  destruct (N.eqb_spec n c) as [->|Hn].
  - exfalso. apply H. now left.
  - unfold toggle in IH. rewrite IH; [reflexivity|].
    intros Hin. apply H. now right.
Qed.

Lemma remove_column_ids (c : N) (items : list item) :
  ~ In c (ids (remove_column c items)).
Proof.
  unfold ids, remove_column. intros H. apply in_map_iff in H as [[n d] [Hn Hin]].
  apply filter_In in Hin as [_ Hf]. cbn in *. subst n.
  now rewrite N.eqb_refl in Hf.
Qed.

Lemma primary_ascending_absent (c : N) (items : list item) :
  ~ In c (ids items) -> primary_ascending c items = false.
Proof.
  destruct items as [|[n d] items]; [reflexivity|]. cbn. intros H.
  destruct (N.eqb_spec n c) as [->|Hn]; [|reflexivity].
  exfalso. apply H. now left.
Qed.

(** [get_add_sort_by] on a token without [column_id]: the first branch. *)
Lemma add_unordered_on_token (qp : Dict.t param) (p : string) (c : N)
    (items : list item) :
  Dict.get qp p = Some (Single (render_token items)) ->
  ~ In c (ids items) ->
  exists so,
    init qp c p = Ok so /\
    get_add_sort_by so =
      get_url_with_query_params qp [(p, VStr (render_token ((c, false) :: items)))].
Proof.
  intros Hget Hnot. destruct items as [|it items].
  - eexists. split.
    + unfold init. rewrite Hget. reflexivity.
    + unfold get_add_sort_by, is_ordered. cbn. apply get_url_int_str.
  - eexists. split; [apply (init_render_token qp c p (it :: items));
                     [assumption | discriminate]|].
    unfold get_add_sort_by. rewrite is_ordered_mk_false by assumption.
    cbn [negb query_order query_params ordering_query_param column_id].
    rewrite render_token_truthy by discriminate.
    now rewrite (render_token_cons (c, false)) by discriminate.
Qed.

(** [get_add_sort_by] on a token of several distinct columns, one of them
    [column_id]: the second branch. *)
Lemma add_multi_on_token (qp : Dict.t param) (p : string) (c : N)
    (items : list item) :
  Dict.get qp p = Some (Single (render_token items)) ->
  NoDup (ids items) -> 1 < List.length items -> In c (ids items) ->
  exists so,
    init qp c p = Ok so /\
    get_add_sort_by so =
      get_url_with_query_params qp [(p, VStr (render_token (promote c items)))].
Proof.
  intros Hget Hnd Hlen Hin.
  pose proof (In_ids_nonempty _ _ Hin) as Hne.
  eexists. split; [now apply (init_render_token qp c p items)|].
  unfold get_add_sort_by, is_reverse, first_is.
  rewrite is_ordered_mk by assumption.
  cbn [negb current_columns_length query_order column_id query_params
       ordering_query_param current_columns].
  apply Nat.ltb_lt in Hlen. rewrite Hlen. apply Nat.ltb_lt in Hlen.
  rewrite order_split_render by assumption. cbn [bind].
  rewrite remove_loop_render, is_reverse_loop_render. cbn [bind].
  assert (remove_column c items <> []) as Hrest.
  { pose proof (remove_column_length c items Hnd Hin) as HL.
    intros E. rewrite E in HL. cbn in HL. lia. }
  unfold promote. rewrite render_token_cons by assumption.
  rewrite <- (not_reversed_primary c items Hnd).
  destruct (ids items) as [|x xs] eqn:Hids.
  { destruct items; [congruence | discriminate]. }
  destruct (existsb (fun it => (fst it =? c)%N && snd it) items); cbn [negb andb bind].
  - reflexivity.
  - destruct (x =? c)%N; reflexivity.
Qed.

(** The link of [get_add_sort_by] on any token of distinct columns. *)
Lemma add_on_token (qp : Dict.t param) (p : string) (c : N) (items : list item) :
  Dict.get qp p = Some (Single (render_token items)) ->
  NoDup (ids items) ->
  get_add_sort_by (mk qp c p (Some (Single (render_token items))) (ids items)
                      (List.length (ids items))) =
    get_url_with_query_params qp [(p, VStr (render_token (promote c items)))].
Proof.
  intros Hget Hnd.
  assert (forall its, Dict.get qp p = Some (Single (render_token its)) ->
            init qp c p = Ok (mk qp c p (Some (Single (render_token its))) (ids its)
                                 (List.length (ids its)))) as Hinit.
  { intros its Hq. unfold init. rewrite Hq, parse_columns_render. reflexivity. }
  destruct (in_dec N.eq_dec c (ids items)) as [Hin|Hnot].
  - destruct (Nat.ltb 1 (List.length items)) eqn:Hlen.
    + apply Nat.ltb_lt in Hlen.
      destruct (add_multi_on_token qp p c items Hget Hnd Hlen Hin) as [so [Hi Ha]].
      rewrite (Hinit items Hget) in Hi. apply Ok_inj in Hi. now subst so.
    + destruct items as [|[n d] [|it items]]; [contradiction | | discriminate Hlen].
      destruct Hin as [Hn|[]]. cbn in Hn. subst n.
      unfold get_add_sort_by. rewrite is_ordered_mk by now left.
      cbn [negb current_columns_length ids map List.length Nat.ltb Nat.leb].
      change [fst (c, d)] with (ids [(c, d)]).
      rewrite reverse_on_token by discriminate.
      unfold promote. cbn [toggle map fst snd primary_ascending remove_column filter].
      now rewrite N.eqb_refl.
  - destruct (add_unordered_on_token qp p c items Hget Hnot) as [so [Hi Ha]].
    rewrite (Hinit items Hget) in Hi. apply Ok_inj in Hi. subst so.
    rewrite Ha. unfold promote.
    now rewrite primary_ascending_absent, remove_column_absent.
Qed.

(** X3: on every well-formed token (distinct ids; empty, with or without
    [column_id], one column or several) the three branches of
    [get_add_sort_by] agree with one rule: the link's token is
    [promote column_id items]. *)
Theorem add_sort_by_is_promote (qp : Dict.t param) (p : string) (c : N)
    (items : list item) :
  Dict.get qp p = Some (Single (render_token items)) ->
  NoDup (ids items) ->
  exists so,
    init qp c p = Ok so /\
    get_add_sort_by so =
      get_url_with_query_params qp [(p, VStr (render_token (promote c items)))].
Proof.
  intros Hget Hnd.
  destruct (in_dec N.eq_dec c (ids items)) as [Hin|Hnot].
  - destruct items as [|[n d] [|it items]]; [contradiction| |].
    + (* the only column *)
      destruct Hin as [Hn|[]]. cbn in Hn. subst n.
      eexists. split; [apply (init_render_token qp c p [(c, d)]);
                       [assumption | discriminate]|].
      unfold get_add_sort_by. rewrite is_ordered_mk by now left.
      cbn [negb current_columns_length List.length Nat.ltb Nat.leb].
      rewrite reverse_on_token by discriminate.
      unfold promote. cbn [toggle map fst snd primary_ascending remove_column filter].
      now rewrite N.eqb_refl.
    + apply add_multi_on_token; try assumption. cbn. lia.
  - destruct (add_unordered_on_token qp p c items Hget Hnot) as [so [Hi Ha]].
    exists so. split; [exact Hi|]. rewrite Ha. unfold promote.
    now rewrite primary_ascending_absent, remove_column_absent.
Qed.

Lemma add_sort_by_is_promote_witness :
  Dict.get [("o", Single "3.-1.2")] "o" =
    Some (Single (render_token [(3%N, false); (1%N, true); (2%N, false)])) /\
  NoDup (ids [(3%N, false); (1%N, true); (2%N, false)]) /\
  exists so,
    init [("o", Single "3.-1.2")] 2 "o" = Ok so /\
    get_add_sort_by so = Ok "?o=2.3.-1".
Proof.
  assert (NoDup (ids [(3%N, false); (1%N, true); (2%N, false)])) as Hnd.
  { repeat constructor; cbn; intuition discriminate. }
  split; [reflexivity|]. split; [exact Hnd|].
  destruct (add_sort_by_is_promote [("o", Single "3.-1.2")] "o" 2
              [(3%N, false); (1%N, true); (2%N, false)] eq_refl Hnd) as [so [Hi Ha]].
  exists so. split; [exact Hi | rewrite Ha; reflexivity].
Defined.

(** X4: when [column_id] is the primary column of a well-formed token,
    [get_add_sort_by] and [get_reverse_sort_by] build the same link: a
    further click only flips the direction. *)
Theorem add_on_primary_is_reverse (qp : Dict.t param) (p : string) (c : N)
    (d : bool) (rest : list item) :
  Dict.get qp p = Some (Single (render_token ((c, d) :: rest))) ->
  NoDup (ids ((c, d) :: rest)) ->
  exists so,
    init qp c p = Ok so /\
    get_add_sort_by so = get_reverse_sort_by so /\
    get_reverse_sort_by so =
      get_url_with_query_params qp [(p, VStr (render_token ((c, negb d) :: rest)))].
Proof.
  intros Hget Hnd.
  assert (~ In c (ids rest)) as Hnot by now inversion Hnd.
  assert (toggle c ((c, d) :: rest) = (c, negb d) :: rest) as Htog.
  { cbn [toggle map fst snd]. rewrite N.eqb_refl. f_equal.
    now apply toggle_absent. }
  assert (promote c ((c, d) :: rest) = (c, negb d) :: rest) as Hpro.
  { unfold promote. cbn [primary_ascending remove_column filter fst snd].
    rewrite N.eqb_refl. cbn [negb andb]. f_equal. now apply remove_column_absent. }
  eexists. split; [apply (init_render_token qp c p ((c, d) :: rest));
                   [assumption | discriminate]|].
  rewrite reverse_on_token by discriminate. rewrite Htog. split; [|reflexivity].
  destruct rest as [|it rest].
  - unfold get_add_sort_by. rewrite is_ordered_mk by now left.
    cbn [negb current_columns_length List.length Nat.ltb Nat.leb].
    rewrite reverse_on_token by discriminate. now rewrite Htog.
  - destruct (add_multi_on_token qp p c ((c, d) :: it :: rest) Hget Hnd)
      as [so [Hi Ha]]; [cbn; lia | now left |].
    rewrite (init_render_token qp c p ((c, d) :: it :: rest)) in Hi
      by (assumption || discriminate).
    apply Ok_inj in Hi. subst so. rewrite Ha. now rewrite Hpro.
Qed.

Lemma add_on_primary_is_reverse_witness :
  Dict.get [("o", Single "-2.1")] "o" =
    Some (Single (render_token ((2%N, true) :: [(1%N, false)]))) /\
  NoDup (ids ((2%N, true) :: [(1%N, false)])) /\
  exists so,
    init [("o", Single "-2.1")] 2 "o" = Ok so /\
    get_add_sort_by so = Ok "?o=2.1" /\
    get_reverse_sort_by so = Ok "?o=2.1".
Proof.
  assert (NoDup (ids ((2%N, true) :: [(1%N, false)]))) as Hnd.
  { repeat constructor; cbn; intuition discriminate. }
  split; [reflexivity|]. split; [exact Hnd|].
  destruct (add_on_primary_is_reverse [("o", Single "-2.1")] "o" 2 true
              [(1%N, false)] eq_refl Hnd) as [so [Hi [Ha Hr]]].
  exists so. split; [exact Hi|]. rewrite Ha, Hr. split; reflexivity.
Defined.

(** X5: removing a column and adding it again: on the token that
    [get_remove_sort_by] produced, [get_add_sort_by] puts [column_id] back
    as the primary column, ascending, in front of the other columns in their
    order (also when nothing else was left). *)
Theorem remove_then_add (qp qp' : Dict.t param) (p : string) (c : N)
    (items : list item) :
  Dict.get qp p = Some (Single (render_token items)) ->
  In c (ids items) ->
  Dict.get qp' p = Some (Single (render_token (remove_column c items))) ->
  (exists so,
     init qp c p = Ok so /\
     get_remove_sort_by so =
       get_url_with_query_params qp
         [(p, VStr (render_token (remove_column c items)))]) /\
  (exists so',
     init qp' c p = Ok so' /\
     is_ordered so' = false /\
     get_add_sort_by so' =
       get_url_with_query_params qp'
         [(p, VStr (render_token ((c, false) :: remove_column c items)))]).
Proof.
  intros Hget Hin Hget'. pose proof (In_ids_nonempty _ _ Hin) as Hne. split.
  - eexists. split; [now apply (init_render_token qp c p items)|].
    now apply remove_on_token.
  - destruct (add_unordered_on_token qp' p c (remove_column c items) Hget'
                (remove_column_ids c items)) as [so' [Hi Ha]].
    exists so'. split; [exact Hi|]. split; [|exact Ha].
    destruct (init_fields _ _ _ _ Hi) as (_ & Hc & _ & _ & Hcols).
    rewrite Hget' in Hcols. unfold is_ordered. rewrite Hc.
    apply not_true_is_false. intros E. apply is_ordered_ids in E.
    apply (remove_column_ids c items).
    rewrite parse_columns_render in Hcols. apply Ok_inj in Hcols.
    now rewrite Hcols.
Qed.

Lemma remove_then_add_witness :
  Dict.get [("o", Single "1.-2.3")] "o" =
    Some (Single (render_token [(1%N, false); (2%N, true); (3%N, false)])) /\
  In 2%N (ids [(1%N, false); (2%N, true); (3%N, false)]) /\
  Dict.get [("o", Single "1.3")] "o" =
    Some (Single (render_token
                    (remove_column 2 [(1%N, false); (2%N, true); (3%N, false)]))) /\
  exists so',
    init [("o", Single "1.3")] 2 "o" = Ok so' /\
    get_add_sort_by so' = Ok "?o=2.1.3".
Proof.
  split; [reflexivity|]. split; [cbn; auto|]. split; [reflexivity|].
  destruct (remove_then_add [("o", Single "1.-2.3")] [("o", Single "1.3")] "o" 2
              [(1%N, false); (2%N, true); (3%N, false)] eq_refl)
    as [_ [so' [Hi [_ Ha]]]]; [cbn; auto | reflexivity |].
  exists so'. split; [exact Hi | rewrite Ha; reflexivity].
Defined.

Lemma index_Some (x : N) (l : list N) (i : nat) :
  index x l = Some i <->
  nth_error l i = Some x /\ forall j, j < i -> nth_error l j <> Some x.
Proof.
  revert i. induction l as [|y l IH]; intros i; cbn [index].
  - split; [discriminate|]. intros [H _]. destruct i; discriminate H.
  - destruct (N.eqb_spec y x) as [->|Hy].
    + split.
      * intros [= <-]. split; [reflexivity|]. intros j Hj. lia.
      * intros [Hn Hfirst]. destruct i as [|i]; [reflexivity|].
        exfalso. apply (Hfirst 0); [lia | reflexivity].
    + destruct i as [|i].
      * split.
        -- destruct (index x l); discriminate.
        -- intros [[= E] _]. congruence.
      * destruct (IH i) as [IH1 IH2]. split.
        -- intros H. destruct (index x l) as [i'|] eqn:E; [|discriminate].
           injection H as ->. destruct (IH1 eq_refl) as [Hn Hfirst].
           split; [exact Hn|]. intros [|j] Hj; cbn; [congruence|].
           apply Hfirst. lia.
        -- intros [Hn Hfirst]. rewrite IH2; [reflexivity|].
           split; [exact Hn|]. intros j Hj. apply (Hfirst (S j)). lia.
Qed.

Lemma index_In (x : N) (l : list N) : In x l -> exists i, index x l = Some i.
Proof.
  induction l as [|y l IH]; [contradiction|]. cbn [index].
  destruct (N.eqb_spec y x) as [->|Hy]; [now eexists|].
  intros [E|Hin]; [congruence|]. destruct (IH Hin) as [i ->]. now eexists.
Qed.

(** X6: [priority] is the 1-based position of the first occurrence of
    [column_id] among the current columns ([None] when there is none). *)
Theorem priority_first_position (so : SmartOrder.t) (k : nat) :
  priority so = Some k <->
  exists i, k = S i /\
            nth_error (current_columns so) i = Some (column_id so) /\
            forall j, j < i -> nth_error (current_columns so) j <> Some (column_id so).
Proof.
  unfold priority. split.
  - destruct (is_ordered so); [|discriminate].
    destruct (index (column_id so) (current_columns so)) as [i|] eqn:E; [|discriminate].
    cbn. intros [= <-]. exists i. split; [lia|]. now apply index_Some.
  - intros [i [-> Hi]]. pose proof Hi as [Hn _].
    assert (is_ordered so = true) as ->.
    { apply is_ordered_ids. eapply nth_error_In. exact Hn. }
    apply index_Some in Hi. rewrite Hi. cbn. f_equal. lia.
Qed.

Lemma existsb_direction (c : N) (d : bool) (items : list item) :
  NoDup (ids items) -> In (c, d) items ->
  existsb (fun it => (fst it =? c)%N && snd it) items = d.
Proof.
  induction items as [|[n e] items IH]; [contradiction|].
  cbn [ids map fst existsb snd]. intros Hnd Hin.
  inversion Hnd as [|? ? Hnotin Hnd']; subst.
  destruct Hin as [[= -> ->]|Hin].
  - rewrite N.eqb_refl. cbn [andb]. destruct d; [reflexivity|]. cbn [orb].
    apply not_true_is_false. intros H. apply existsb_exists in H as [it [Hit Hc]].
    apply andb_true_iff in Hc as [Hc _]. apply N.eqb_eq in Hc. subst.
    apply Hnotin. now apply in_map.
  - destruct (N.eqb_spec n c) as [->|Hn]; cbn [andb orb].
    + exfalso. apply Hnotin. change c with (fst (c, d)). now apply in_map.
    + now apply IH.
Qed.

(** X7: on a well-formed token, [is_reverse] returns the direction of
    [column_id]'s element, and [False] when the column is not in it. *)
Theorem is_reverse_on_token (qp : Dict.t param) (p : string) (c : N)
    (items : list item) :
  Dict.get qp p = Some (Single (render_token items)) ->
  items <> [] ->
  NoDup (ids items) ->
  exists so,
    init qp c p = Ok so /\
    (forall d, In (c, d) items -> is_reverse so = Ok d) /\
    (~ In c (ids items) -> is_reverse so = Ok false).
Proof.
  intros Hget Hne Hnd.
  eexists. split; [now apply (init_render_token qp c p items)|].
  unfold is_reverse. cbn [query_order column_id].
  rewrite order_split_render by assumption. cbn [bind].
  rewrite is_reverse_loop_render. split.
  - intros d Hin. f_equal. now apply existsb_direction.
  - intros Hnot. f_equal. apply not_true_is_false. intros H.
    apply existsb_exists in H as [it [Hit Hc]].
    apply andb_true_iff in Hc as [Hc _]. apply N.eqb_eq in Hc. subst.
    apply Hnot. now apply in_map.
Qed.

Lemma is_reverse_on_token_witness :
  Dict.get [("o", Single "1.-2.3")] "o" =
    Some (Single (render_token [(1%N, false); (2%N, true); (3%N, false)])) /\
  [(1%N, false); (2%N, true); (3%N, false)] <> [] /\
  NoDup (ids [(1%N, false); (2%N, true); (3%N, false)]) /\
  exists so,
    init [("o", Single "1.-2.3")] 2 "o" = Ok so /\ is_reverse so = Ok true.
Proof.
  assert (NoDup (ids [(1%N, false); (2%N, true); (3%N, false)])) as Hnd.
  { repeat constructor; cbn; intuition discriminate. }
  split; [reflexivity|]. split; [discriminate|]. split; [exact Hnd|].
  destruct (is_reverse_on_token [("o", Single "1.-2.3")] "o" 2
              [(1%N, false); (2%N, true); (3%N, false)] eq_refl) as [so [Hi [Hd _]]];
    [discriminate | exact Hnd |].
  exists so. split; [exact Hi|]. apply Hd. cbn. auto.
Defined.

(** X8: [get_reverse_sort_by] never changes which columns are sorted: in
    any state that holds the token of its link, the current columns, and so
    every column's priority, are the ones of the state it started from. *)
Theorem reverse_keeps_priorities (qp : Dict.t param) (p : string)
    (c c' : N) (items : list item) :
  Dict.get qp p = Some (Single (render_token items)) ->
  items <> [] ->
  exists so tok,
    init qp c p = Ok so /\
    get_reverse_sort_by so = get_url_with_query_params qp [(p, VStr tok)] /\
    forall qp', Dict.get qp' p = Some (Single tok) ->
      exists before after,
        init qp c' p = Ok before /\ init qp' c' p = Ok after /\
        current_columns after = current_columns before /\
        is_ordered after = is_ordered before /\
        priority after = priority before.
Proof.
  intros Hget Hne.
  assert (forall q x its, Dict.get q p = Some (Single (render_token its)) ->
            init q x p = Ok (mk q x p (Some (Single (render_token its))) (ids its)
                                (List.length (ids its)))) as Hinit.
  { intros q x its Hq. unfold init. rewrite Hq, parse_columns_render. reflexivity. }
  eexists. exists (render_token (toggle c items)).
  split; [now apply (init_render_token qp c p items)|].
  split; [now apply reverse_on_token|].
  intros qp' Hget'.
  exists (mk qp c' p (Some (Single (render_token items))) (ids items)
             (List.length (ids items))).
  exists (mk qp' c' p (Some (Single (render_token (toggle c items))))
             (ids (toggle c items)) (List.length (ids (toggle c items)))).
  split; [now apply Hinit|]. split; [now apply Hinit|].
  unfold priority, is_ordered. cbn [current_columns column_id].
  rewrite toggle_ids. repeat split.
Qed.

Lemma reverse_keeps_priorities_witness :
  Dict.get [("o", Single "1.-2.3")] "o" =
    Some (Single (render_token [(1%N, false); (2%N, true); (3%N, false)])) /\
  [(1%N, false); (2%N, true); (3%N, false)] <> [] /\
  exists so tok,
    init [("o", Single "1.-2.3")] 2 "o" = Ok so /\
    get_reverse_sort_by so =
      get_url_with_query_params [("o", Single "1.-2.3")] [("o", VStr tok)] /\
    exists before after,
      init [("o", Single "1.-2.3")] 3 "o" = Ok before /\
      init [("o", Single tok)] 3 "o" = Ok after /\
      priority after = priority before.
Proof.
  split; [reflexivity|]. split; [discriminate|].
  destruct (reverse_keeps_priorities [("o", Single "1.-2.3")] "o" 2 3
              [(1%N, false); (2%N, true); (3%N, false)] eq_refl)
    as [so [tok [Hi [Hr Hnext]]]]; [discriminate|].
  exists so, tok. split; [exact Hi|]. split; [exact Hr|].
  destruct (Hnext [("o", Single tok)]) as [before [after [Hb [Ha [_ [_ Hp]]]]]].
  - cbn. reflexivity.
  - exists before, after. split; [exact Hb|]. split; [exact Ha | exact Hp].
Defined.

(** X9: in any state that holds the token of an add link, [column_id] is
    the primary column (priority 1) and the other columns follow in the
    order they had. *)
Theorem add_makes_primary (qp : Dict.t param) (p : string) (c : N)
    (items : list item) :
  Dict.get qp p = Some (Single (render_token items)) ->
  NoDup (ids items) ->
  exists so tok,
    init qp c p = Ok so /\
    get_add_sort_by so = get_url_with_query_params qp [(p, VStr tok)] /\
    forall qp', Dict.get qp' p = Some (Single tok) ->
      exists so',
        init qp' c p = Ok so' /\
        current_columns so' =
          c :: filter (fun x => negb (x =? c)%N) (current_columns so) /\
        is_ordered so' = true /\
        priority so' = Some 1.
Proof.
  intros Hget Hnd.
  exists (mk qp c p (Some (Single (render_token items))) (ids items)
             (List.length (ids items))).
  exists (render_token (promote c items)).
  split; [unfold init; rewrite Hget, parse_columns_render; reflexivity|].
  split; [now apply add_on_token|].
  intros qp' Hget'. eexists. split.
  - apply (init_render_token qp' c p (promote c items)); [assumption | discriminate].
  - cbn [current_columns]. split.
    + cbn [promote ids map fst]. f_equal. unfold ids, remove_column.
      clear. induction items as [|[n d] items IH]; [reflexivity|].
      cbn [filter map fst]. destruct (negb (n =? c)%N); cbn [map fst]; now rewrite IH.
    + unfold priority, is_ordered. cbn [current_columns column_id promote ids map fst
        existsb index]. rewrite N.eqb_refl. cbn. split; reflexivity.
Qed.

Lemma add_makes_primary_witness :
  Dict.get [("o", Single "3.-1.2")] "o" =
    Some (Single (render_token [(3%N, false); (1%N, true); (2%N, false)])) /\
  NoDup (ids [(3%N, false); (1%N, true); (2%N, false)]) /\
  exists so tok,
    init [("o", Single "3.-1.2")] 2 "o" = Ok so /\
    get_add_sort_by so = get_url_with_query_params [("o", Single "3.-1.2")]
                           [("o", VStr tok)] /\
    exists so', init [("o", Single tok)] 2 "o" = Ok so' /\ priority so' = Some 1.
Proof.
  assert (NoDup (ids [(3%N, false); (1%N, true); (2%N, false)])) as Hnd.
  { repeat constructor; cbn; intuition discriminate. }
  split; [reflexivity|]. split; [exact Hnd|].
  destruct (add_makes_primary [("o", Single "3.-1.2")] "o" 2
              [(3%N, false); (1%N, true); (2%N, false)] eq_refl Hnd)
    as [so [tok [Hi [Ha Hnext]]]].
  exists so, tok. split; [exact Hi|]. split; [exact Ha|].
  destruct (Hnext [("o", Single tok)]) as [so' [Hi' [_ [_ Hp]]]].
  - cbn. reflexivity.
  - exists so'. split; [exact Hi' | exact Hp].
Defined.

Lemma remove_column_all (c : N) (items : list item) :
  (forall it, In it items -> fst it = c) -> remove_column c items = [].
Proof.
  induction items as [|it items IH]; [reflexivity|]. intros H.
  cbn [remove_column filter]. rewrite (H it) by now left.
  rewrite N.eqb_refl. cbn [negb]. apply IH. intros x Hx. apply H. now right.
Qed.

(** X10: the codec of the token does not enforce distinct ids.  On a token
    of several elements that are all [column_id], [get_add_sort_by] builds
    a link whose token ends with the separator, and [__init__] raises
    [ValueError] on any state that holds this token. *)
Theorem add_on_repeated_column (qp : Dict.t param) (p : string) (c : N)
    (items : list item) :
  Dict.get qp p = Some (Single (render_token items)) ->
  1 < List.length items ->
  (forall it, In it items -> fst it = c) ->
  exists so tok,
    init qp c p = Ok so /\
    tok = (if existsb snd items then "" else "-") ++ of_N c ++ "." /\
    get_add_sort_by so = get_url_with_query_params qp [(p, VStr tok)] /\
    forall qp', Dict.get qp' p = Some (Single tok) ->
                init qp' c p = Raise ValueError.
Proof.
  intros Hget Hlen Hall.
  assert (items <> []) as Hne by (destruct items; [cbn in Hlen; lia | discriminate]).
  assert (In c (ids items)) as Hin.
  { destruct items as [|it items]; [congruence|]. left. apply Hall. now left. }
  assert (existsb (fun it => (fst it =? c)%N && snd it) items = existsb snd items) as Hrev.
  { clear Hget Hlen Hne Hin. induction items as [|it items IH]; [reflexivity|].
    cbn [existsb]. rewrite (Hall it) by now left. rewrite N.eqb_refl. cbn [andb].
    f_equal. apply IH. intros x Hx. apply Hall. now right. }
  eexists. eexists. split; [now apply (init_render_token qp c p items)|].
  split; [reflexivity|]. split.
  - unfold get_add_sort_by, is_reverse, first_is.
    rewrite is_ordered_mk by assumption.
    cbn [negb current_columns_length query_order column_id query_params
         ordering_query_param current_columns].
    apply Nat.ltb_lt in Hlen. rewrite Hlen.
    rewrite order_split_render by assumption. cbn [bind].
    rewrite remove_loop_render, is_reverse_loop_render. cbn [bind].
    rewrite remove_column_all by assumption. rewrite Hrev.
    destruct items as [|it items]; [congruence|].
    cbn [ids map]. rewrite (Hall it) by now left. rewrite N.eqb_refl.
    destruct (existsb snd (it :: items)); reflexivity.
  - intros qp' Hget'.
    apply (init_malformed_token_aux qp' c p _ "" Hget').
    + apply truthy_app_r, truthy_app_l, truthy_of_N.
    + assert (remove_char "-" ((if existsb snd items then "" else "-") ++ of_N c ++ ".")
              = of_N c ++ ".") as ->.
      { rewrite !remove_char_app.
        rewrite (remove_char_lacks "-" (of_N c)) by now apply lacks_of_N.
        now destruct (existsb snd items). }
      rewrite split_app by now apply lacks_of_N. cbn. auto.
    + reflexivity.
Qed.

Lemma add_on_repeated_column_witness :
  Dict.get [("o", Single "1.-1")] "o" =
    Some (Single (render_token [(1%N, false); (1%N, true)])) /\
  1 < List.length [(1%N, false); (1%N, true)] /\
  (forall it, In it [(1%N, false); (1%N, true)] -> fst it = 1%N) /\
  exists so,
    init [("o", Single "1.-1")] 1 "o" = Ok so /\
    get_add_sort_by so = Ok "?o=1." /\
    init [("o", Single "1.")] 1 "o" = Raise ValueError.
Proof.
  assert (forall it, In it [(1%N, false); (1%N, true)] -> fst it = 1%N) as Hall.
  { intros it [<- | [<- | []]]; reflexivity. }
  split; [reflexivity|]. split; [cbn; lia|]. split; [exact Hall|].
  destruct (add_on_repeated_column [("o", Single "1.-1")] "o" 1
              [(1%N, false); (1%N, true)] eq_refl) as [so [tok [Hi [Ht [Ha Hnext]]]]];
    [cbn; lia | exact Hall |].
  exists so. split; [exact Hi|]. subst tok. split.
  - rewrite Ha. reflexivity.
  - apply Hnext. reflexivity.
Defined.

End SortStateFacts.

(* ================================================================== *)
(** * More on the codec: what an override does to its key *)

Section CodecOverrides.

Import Chars PyStr.






Lemma keys_set {V : Type} (d : Dict.t V) (k : string) (v : V) :
  NoDup (map fst d) -> NoDup (map fst (Dict.set d k v)) /\
  (forall k', In k' (map fst (Dict.set d k v)) <-> k' = k \/ In k' (map fst d)).
Proof.
  induction d as [|[k0 v0] d IH]; cbn [Dict.set map fst].
  - intros _. split; [repeat constructor; intros []|]. intros k'. cbn. intuition.
  - intros Hnd. inversion Hnd as [|? ? Hnot Hnd']; subst.
    destruct (String.eqb_spec k0 k) as [->|Hk]; cbn [map fst].
    + split; [assumption|]. intros k'. cbn. intuition.
    + destruct (IH Hnd') as [IH1 IH2]. split.
      * constructor; [|assumption]. rewrite IH2. intros [E|Hin]; [congruence | auto].
      * intros k'. cbn. rewrite IH2. intuition.
Qed.

Lemma keys_update {V : Type} (ov d : Dict.t V) :
  NoDup (map fst d) -> NoDup (map fst (Dict.update d ov)) /\
  (forall k, In k (map fst (Dict.update d ov)) <-> In k (map fst ov) \/ In k (map fst d)).
Proof.
  unfold Dict.update. revert d.
  induction ov as [|[k0 v0] ov IH]; intros d Hnd; cbn [fold_left fst snd map].
  - split; [assumption|]. intros k. cbn. intuition.
  - destruct (keys_set d k0 v0 Hnd) as [Hs1 Hs2].
    destruct (IH _ Hs1) as [IH1 IH2]. split; [assumption|].
    intros k. rewrite IH2, Hs2. cbn. intuition.
Qed.

Lemma get_update_override {V : Type} (ov d : Dict.t V) (k : string) (v : V) :
  NoDup (map fst ov) -> Dict.get ov k = Some v ->
  Dict.get (Dict.update d ov) k = Some v.
Proof.
  unfold Dict.update. revert d.
  induction ov as [|[k0 v0] ov IH]; intros d Hnd Hget; cbn [Dict.get] in Hget;
    [discriminate|].
  cbn [fold_left fst snd]. cbn [map fst] in Hnd.
  inversion Hnd as [|? ? Hnot Hnd']; subst.
  destruct (String.eqb_spec k0 k) as [->|Hk].
  - injection Hget as ->.
    change (fold_left _ ov (Dict.set d k v)) with (Dict.update (Dict.set d k v) ov).
    rewrite get_update_other; [apply get_set_same|].
    destruct (Dict.get ov k) eqn:E; [|reflexivity].
    exfalso. apply Hnot. apply get_In in E.
    change k with (fst (k, v0)). now apply in_map.
  - now apply IH.
Qed.

Lemma In_get {V : Type} (d : Dict.t V) (k : string) (v : V) :
  NoDup (map fst d) -> In (k, v) d -> Dict.get d k = Some v.
Proof.
  induction d as [|[k0 v0] d IH]; [contradiction|].
  cbn [map fst Dict.get]. intros Hnd Hin.
  inversion Hnd as [|? ? Hnot Hnd']; subst.
  destruct Hin as [[= -> ->]|Hin].
  - now rewrite String.eqb_refl.
  - destruct (String.eqb_spec k0 k) as [->|Hk]; [|now apply IH].
    exfalso. apply Hnot. change k with (fst (k, v)). now apply in_map.
Qed.

Lemma collapse_keys (qp : Dict.t param) (q : Dict.t value) :
  mapM QueryParamsMixin.collapse_item qp = Ok q -> map fst q = map fst qp.
Proof.
  revert q. induction qp as [|[k v] qp IH]; intros q; cbn [mapM].
  - now intros [= <-].
  - destruct (QueryParamsMixin.collapse_item (k, v)) as [kv|] eqn:Hc; cbn [bind];
      [|discriminate].
    destruct (mapM _ qp) as [q'|]; cbn [bind]; [|discriminate].
    intros [= <-]. cbn [map fst]. rewrite (IH q' eq_refl). f_equal.
    unfold QueryParamsMixin.collapse_item in Hc. cbn [fst snd] in Hc.
    destruct v as [s|[|x l]]; try discriminate; now injection Hc as <-.
Qed.

Lemma In_drop_none (d : Dict.t value) (k : string) (v : value) :
  In (k, v) (QueryParamsMixin.drop_none d) <-> In (k, v) d /\ v <> VNone.
Proof.
  unfold QueryParamsMixin.drop_none. rewrite filter_In. cbn [snd].
  destruct v; cbn; intuition congruence.
Qed.

(** The dictionary handed to [urlencode], for dictionaries with distinct keys. *)
Lemma final_query_items (qp : Dict.t param) (ov q : Dict.t value) :
  NoDup (map fst qp) -> NoDup (map fst ov) ->
  QueryParamsMixin.final_query qp ov = Ok q ->
  forall k v, In (k, v) q ->
    v <> VNone /\
    (Dict.get ov k = Some v \/
     (Dict.get ov k = None /\ exists x, Dict.get qp k = Some x /\
                                         first_value x = Some (str_value v))).
Proof.
  intros Hqp Hov Hq k v Hin. unfold QueryParamsMixin.final_query in Hq.
  destruct (mapM _ qp) as [q0|] eqn:Hq0; cbn [bind] in Hq; [|discriminate].
  injection Hq as <-. apply In_drop_none in Hin as [Hin Hv]. split; [exact Hv|].
  assert (NoDup (map fst q0)) as Hq0nd by now rewrite (collapse_keys _ _ Hq0).
  destruct (keys_update ov q0 Hq0nd) as [Hund _].
  apply (In_get _ _ _ Hund) in Hin.
  destruct (Dict.get ov k) as [w|] eqn:Hw.
  - left. rewrite (get_update_override ov q0 k w Hov Hw) in Hin. congruence.
  - right. split; [reflexivity|].
    rewrite get_update_other in Hin by assumption.
    destruct (Dict.get qp k) as [x|] eqn:Hx.
    + destruct (collapse_get _ _ _ _ Hq0 Hx) as [y [Hy Hgy]].
      exists x. split; [reflexivity|]. rewrite Hgy in Hin. injection Hin as <-. exact Hy.
    + rewrite (collapse_get_none _ _ _ Hq0 Hx) in Hin. discriminate Hin.
Qed.





(** X13: the codec invents nothing: every segment of the query string
    encodes a key of the overrides with its override value, or a key of the
    current mapping, not overridden, with its value or the first element of
    its list. *)
Theorem codec_segments_come_from_inputs (qp : Dict.t param) (ov : Dict.t value)
    (url : string) :
  NoDup (map fst qp) -> NoDup (map fst ov) ->
  get_url_with_query_params qp ov = Ok url ->
  exists segs,
    url = "?" ++ join "&" segs /\
    forall seg, In seg segs ->
      exists k x, seg = Url.encode_pair k x /\
        ((exists v, Dict.get ov k = Some v /\ v <> VNone /\ x = str_value v) \/
         (Dict.get ov k = None /\
          exists stored, Dict.get qp k = Some stored /\ first_value stored = Some x)).
Proof.
  intros Hqp Hov Hurl.
  destruct (get_url_final_query _ _ _ Hurl) as [q Hq].
  rewrite (final_query_url _ _ _ Hq) in Hurl. injection Hurl as <-.
  eexists. split; [reflexivity|].
  intros seg Hin. apply in_map_iff in Hin as [[k v] [<- Hin]]. cbn [fst snd].
  exists k, (str_value v). split; [reflexivity|].
  destruct (final_query_items qp ov q Hqp Hov Hq k v Hin) as [Hv [Hget|[Hget Hst]]].
  - left. now exists v.
  - right. split; assumption.
Qed.

Lemma codec_segments_come_from_inputs_witness :
  NoDup (map fst [("status", Multi ["2"; "3"]); ("o", Single "1")]) /\
  NoDup (map fst [("o", VStr "-1"); ("q", VNone)]) /\
  get_url_with_query_params [("status", Multi ["2"; "3"]); ("o", Single "1")]
    [("o", VStr "-1"); ("q", VNone)] = Ok "?status=2&o=-1" /\
  exists segs, "?status=2&o=-1" = "?" ++ join "&" segs.
Proof.
  assert (NoDup (map fst [("status", Multi ["2"; "3"]); ("o", Single "1")])) as H1.
  { repeat constructor; cbn; intuition discriminate. }
  assert (NoDup (map fst [("o", VStr "-1"); ("q", VNone)])) as H2.
  { repeat constructor; cbn; intuition discriminate. }
  split; [exact H1|]. split; [exact H2|]. split; [reflexivity|].
  destruct (codec_segments_come_from_inputs _ _ "?status=2&o=-1" H1 H2 eq_refl)
    as [segs [Hs _]].
  exists segs. exact Hs.
Defined.

End CodecOverrides.

(* ================================================================== *)
(** * More on filter options *)

Section FilterOptionFacts.

Import SmartFilter.

Lemma is_active_true (o : SmartFilterValue.t) :
  SmartFilterValue.is_active o = Ok true ->
  match Dict.get (SmartFilterValue.query_params o) (SmartFilterValue.field_name o) with
  | Some stored => exists s, first_value stored = Some s /\
                             SmartFilterValue.value_ o = VStr s
  | None => SmartFilterValue.value_ o = VNone
  end.
Proof.
  unfold SmartFilterValue.is_active.
  destruct (Dict.get _ _) as [[s|[|x l]]|]; cbn.
  - intros [= H]. destruct (SmartFilterValue.value_ o); try discriminate.
    apply String.eqb_eq in H. subst. now eexists.
  - discriminate.
  - intros [= H]. destruct (SmartFilterValue.value_ o); try discriminate.
    apply String.eqb_eq in H. subst. now eexists.
  - intros [= H]. now destruct (SmartFilterValue.value_ o).
Qed.

(** X14: the options of a boolean field are "All", "Yes" with the integer
    1 and "No" with the integer 0; as query parameters are strings, [==]
    never holds for the last two: whatever the query parameters, neither
    "Yes" nor "No" is active. *)
Theorem boolean_options_never_active (name : string) (qp : Dict.t param) :
  exists all yes no,
    get_values (mk name (Field [] BooleanField) qp) = [all; yes; no] /\
    SmartFilterValue.value_ all = VNone /\
    (SmartFilterValue.label yes, SmartFilterValue.value_ yes) = ("Yes", VInt 1) /\
    (SmartFilterValue.label no, SmartFilterValue.value_ no) = ("No", VInt 0) /\
    SmartFilterValue.is_active yes <> Ok true /\
    SmartFilterValue.is_active no <> Ok true.
Proof.
  do 3 eexists. split; [reflexivity|].
  split; [reflexivity|]. split; [reflexivity|]. split; [reflexivity|].
  split; intros H; apply is_active_true in H; cbn in H;
    destruct (Dict.get qp name); [destruct H as [s [_ H]] | | destruct H as [s [_ H]] |];
    discriminate H.
Qed.

(** X15: an option whose value is a string is active exactly when the
    parameter is stored with that string, or with a list that starts
    with it. *)
Theorem string_option_active_iff (name label s : string) (qp : Dict.t param) :
  SmartFilterValue.is_active (SmartFilterValue.mk name label (VStr s) qp) = Ok true <->
  exists stored, Dict.get qp name = Some stored /\ first_value stored = Some s.
Proof.
  split.
  - intros H. apply is_active_true in H. cbn in H.
    destruct (Dict.get qp name) as [stored|]; [|discriminate H].
    destruct H as [s' [Hs [= ->]]]. now exists stored.
  - intros [stored [Hget Hs]]. unfold SmartFilterValue.is_active. cbn.
    rewrite Hget. destruct stored as [x|[|x l]]; cbn in Hs; try discriminate;
      injection Hs as ->; cbn; now rewrite String.eqb_refl.
Qed.

(** X16: two options that read the same parameter from the same query
    parameters and are both active carry the same value: among options with
    distinct values at most one is active. *)
Theorem active_options_agree (o1 o2 : SmartFilterValue.t) :
  SmartFilterValue.field_name o1 = SmartFilterValue.field_name o2 ->
  SmartFilterValue.query_params o1 = SmartFilterValue.query_params o2 ->
  SmartFilterValue.is_active o1 = Ok true ->
  SmartFilterValue.is_active o2 = Ok true ->
  SmartFilterValue.value_ o1 = SmartFilterValue.value_ o2.
Proof.
  intros Hf Hq H1 H2. apply is_active_true in H1, H2. rewrite <- Hf, <- Hq in H2.
  destruct (Dict.get _ _) as [stored|].
  - destruct H1 as [s1 [Hs1 ->]], H2 as [s2 [Hs2 ->]]. congruence.
  - congruence.
Qed.

Lemma active_options_agree_witness :
  let o1 := SmartFilterValue.mk "status" "Closed" (VStr "2") [("status", Multi ["2"; "1"])] in
  let o2 := SmartFilterValue.mk "status" "Shut" (VStr "2") [("status", Multi ["2"; "1"])] in
  SmartFilterValue.field_name o1 = SmartFilterValue.field_name o2 /\
  SmartFilterValue.query_params o1 = SmartFilterValue.query_params o2 /\
  SmartFilterValue.is_active o1 = Ok true /\
  SmartFilterValue.is_active o2 = Ok true /\
  SmartFilterValue.value_ o1 = SmartFilterValue.value_ o2.
Proof.
  cbv zeta.
  split; [reflexivity|]. split; [reflexivity|]. split; [reflexivity|].
  split; [reflexivity|].
  apply active_options_agree; reflexivity.
Defined.

(** X17: every option of a filter built by [__init__] writes to the
    filter's parameter and reads the filter's query parameters; the "All"
    option comes on top of one option per lookup, choice or related
    record.  ([get_field] returns model fields, never a [SmartListFilter].) *)
Theorem options_share_parameter (meta : string -> option model_field)
    (field : field_arg) (qp : Dict.t param) (f : SmartFilter.t) :
  (forall name pn title lookups, meta name <> Some (SmartListFilter pn title lookups)) ->
  init meta field qp = Ok f ->
  Forall (fun o => SmartFilterValue.field_name o = field_name f /\
                   SmartFilterValue.query_params o = qp)
         (get_values f) /\
  List.length (get_values f) =
    S (match model_field_ f with
       | SmartListFilter _ _ lookups => List.length lookups
       | Field (c :: cs) _ => List.length (c :: cs)
       | Field [] BooleanField => 2
       | Field [] (ForeignKey related) => List.length related
       | Field [] OtherField => 0
       end).
Proof.
  intros Hmeta Hinit.
  assert (query_params f = qp /\
          match model_field_ f with
          | SmartListFilter pn _ _ => pn = field_name f
          | Field _ _ => True
          end) as [Hqp Hpn].
  { unfold init in Hinit. destruct field as [pn title lookups|name].
    - injection Hinit as <-. cbn. auto.
    - destruct (meta name) as [mf|] eqn:Hm; [|discriminate].
      injection Hinit as <-. cbn. destruct mf; auto.
      exfalso. eapply Hmeta. exact Hm. }
  unfold get_values. split.
  - constructor; [cbn; auto|].
    destruct (model_field_ f) as [pn title lookups|[|c cs] [|related|]];
      apply Forall_forall; intros o Ho; try contradiction;
      apply in_map_iff in Ho as [x [<- _]]; cbn; subst; auto.
  - cbn [List.length]. f_equal.
    destruct (model_field_ f) as [pn title lookups|[|c cs] [|related|]];
      try reflexivity; now rewrite length_map.
Qed.

Lemma options_share_parameter_witness :
  (forall name pn title lookups,
     status_meta name <> Some (SmartListFilter pn title lookups)) /\
  exists f,
    init status_meta (Custom "state" "State" [(VStr "a", "A"); (VStr "b", "B")])
      [("state", Single "b")] = Ok f /\
    Forall (fun o => SmartFilterValue.field_name o = field_name f /\
                     SmartFilterValue.query_params o = [("state", Single "b")])
           (get_values f) /\
    List.length (get_values f) = 3.
Proof.
  assert (forall name pn title lookups,
            status_meta name <> Some (SmartListFilter pn title lookups)) as Hmeta.
  { intros name pn title lookups. unfold status_meta.
    destruct (String.eqb name "status"); discriminate. }
  split; [exact Hmeta|].
  eexists. split; [reflexivity|].
  destruct (options_share_parameter status_meta
              (Custom "state" "State" [(VStr "a", "A"); (VStr "b", "B")])
              [("state", Single "b")] _ Hmeta eq_refl) as [HF HL].
  split; [exact HF | exact HL].
Defined.

End FilterOptionFacts.

(* ================================================================== *)
(** * Columns and the list *)

Section ColumnFacts.

Import SmartColumn.

Lemma make_order_not_exception (qa : query_arg) (i : N) (p : string) :
  make_order qa i p <> Failed SmartListException.
Proof.
  unfold make_order, lift. destruct qa as [d|v]; [|discriminate].
  destruct (SmartOrder.init d i p); discriminate.
Qed.

(** X18: [SmartColumn] raises [SmartListException] in exactly two cases:
    the field name starts with an underscore and is not ["__str__"], or the
    name is not a model field and is an attribute of the model that is
    callable and flagged [alters_data].  (A model field is accepted without
    looking at [alters_data].) *)
Theorem column_rejected_iff (m : model) (field : string) (i : N)
    (qa : query_arg) (p : string) :
  init m field i qa p = Failed SmartListException <->
  (PyStr.startswith "_" field = true /\ field <> "__str__") \/
  (get_field m field = None /\
   exists a, getattr m field = Some a /\ callable a = true /\ alters_data a = true).
Proof.
  unfold init, resolve.
  destruct (PyStr.startswith "_" field) eqn:Hu; cbn [andb].
  - destruct (String.eqb_spec field "__str__") as [->|Hne]; cbn [negb].
    + (* "__str__" is exempt *)
      destruct (get_field m "__str__") as [f|] eqn:Hf; cbn [bind_built fst snd truthy_opt
        PyStr.truthy].
      * split.
        -- destruct (make_order qa i p) eqn:Ho; cbn [bind_built]; [discriminate|].
           intros [= ->]. now apply make_order_not_exception in Ho.
        -- intros [[_ H]|[H _]]; congruence.
      * destruct (getattr m "__str__") as [a|] eqn:Ha.
        -- destruct (callable a) eqn:Hc; cbn [andb].
           ++ destruct (alters_data a) eqn:Hd; cbn [bind_built].
              ** split; [|reflexivity]. intros _. right. split; [reflexivity|].
                 exists a. auto.
              ** split.
                 --- destruct (truthy_opt _); cbn [fst snd bind_built]; [|discriminate].
                     destruct (make_order qa i p) eqn:Ho; cbn [bind_built]; [discriminate|].
                     intros [= ->]. now apply make_order_not_exception in Ho.
                 --- intros [[_ H]|[_ [a' [[= <-] [_ H]]]]]; congruence.
           ++ cbn [bind_built fst snd truthy_opt]. split; [discriminate|].
              intros [[_ H]|[_ [a' [[= <-] [H _]]]]]; congruence.
        -- cbn [bind_built fst snd truthy_opt PyStr.truthy]. split.
           ++ destruct (make_order qa i p) eqn:Ho; cbn [bind_built]; [discriminate|].
              intros [= ->]. now apply make_order_not_exception in Ho.
           ++ intros [[_ H]|[_ [a' [H _]]]]; congruence.
    + split; [|reflexivity]. intros _. now left.
  - destruct (get_field m field) as [f|] eqn:Hf; cbn [bind_built fst snd].
    + split.
      * destruct (truthy_opt (Some field)); [|discriminate].
        destruct (make_order qa i p) eqn:Ho; cbn [bind_built]; [discriminate|].
        intros [= ->]. now apply make_order_not_exception in Ho.
      * intros [[H _]|[H _]]; congruence.
    + destruct (getattr m field) as [a|] eqn:Ha.
      * destruct (callable a) eqn:Hc; cbn [andb].
        -- destruct (alters_data a) eqn:Hd; cbn [bind_built].
           ++ split; [|reflexivity]. intros _. right. split; [reflexivity|].
              exists a. auto.
           ++ split.
              ** destruct (truthy_opt _); cbn [fst snd bind_built]; [|discriminate].
                 destruct (make_order qa i p) eqn:Ho; cbn [bind_built]; [discriminate|].
                 intros [= ->]. now apply make_order_not_exception in Ho.
              ** intros [[H _]|[_ [a' [[= <-] [_ H]]]]]; congruence.
        -- cbn [bind_built fst snd truthy_opt]. split; [discriminate|].
           intros [[H _]|[_ [a' [[= <-] [H _]]]]]; congruence.
      * cbn [bind_built fst snd]. split.
        -- destruct (truthy_opt (Some field)); [|discriminate].
           destruct (make_order qa i p) eqn:Ho; cbn [bind_built]; [discriminate|].
           intros [= ->]. now apply make_order_not_exception in Ho.
        -- intros [[H _]|[_ [a' [H _]]]]; congruence.
Qed.

Lemma init_built (m : model) (field : string) (i : N) (qa : query_arg)
    (p : string) (col : SmartColumn.t) :
  init m field i qa p = Built col ->
  field_name col = field /\
  resolve m field = Built (model_field col, order_field col) /\
  match order col with
  | Some so => truthy_opt (order_field col) = true /\ make_order qa i p = Built so
  | None => truthy_opt (order_field col) = false
  end.
Proof.
  unfold init. destruct (_ && _); [discriminate|].
  destruct (resolve m field) as [[mf ofield]|]; cbn [bind_built fst snd]; [|discriminate].
  destruct (truthy_opt ofield) eqn:Ht.
  - destruct (make_order qa i p) as [so|]; cbn [bind_built]; [|discriminate].
    intros [= <-]. cbn. auto.
  - intros [= <-]. cbn. auto.
Qed.

(** X19: a column that was built is sortable exactly when its order field
    is a non-empty string, and its [SmartOrder] is the one of its own
    column id over the query parameters and the sort parameter it was
    given. *)
Theorem column_order (m : model) (field : string) (i : N)
    (qp : Dict.t param) (p : string) (col : SmartColumn.t) :
  init m field i (Mapping qp) p = Built col ->
  (order col <> None <-> truthy_opt (order_field col) = true) /\
  forall so, order col = Some so ->
    SmartOrder.init qp i p = Ok so /\
    SmartOrder.column_id so = i /\
    SmartOrder.query_params so = qp /\
    SmartOrder.ordering_query_param so = p.
Proof.
  intros Hinit. destruct (init_built _ _ _ _ _ _ Hinit) as (_ & _ & Ho).
  destruct (order col) as [so|].
  - destruct Ho as [Ht Hmk]. split; [split; [auto | discriminate]|].
    intros so' [= <-]. unfold make_order, lift in Hmk.
    destruct (SmartOrder.init qp i p) as [so'|] eqn:Hso; [|discriminate].
    injection Hmk as ->.
    destruct (init_fields _ _ _ _ Hso) as (H1 & H2 & H3 & _). auto.
  - split; [split; [congruence | rewrite Ho; discriminate]|]. discriminate.
Qed.

Lemma column_order_witness :
  let m := mk_model status_meta (fun _ => None) in
  exists col so,
    init m "status" 2 (Mapping [("o", Single "-2.1")]) "o" = Built col /\
    order col = Some so /\
    SmartOrder.column_id so = 2%N.
Proof.
  cbv zeta. eexists. eexists. split; [reflexivity|]. split; [reflexivity|].
  destruct (column_order (mk_model status_meta (fun _ => None)) "status" 2
              [("o", Single "-2.1")] "o" _ eq_refl) as [_ H].
  destruct (H _ eq_refl) as [_ [Hc _]]. exact Hc.
Defined.

End ColumnFacts.

Section ListFacts.

Import SmartColumn.

Lemma map_built_enumerate (m : model) (qp : Dict.t param) (p : string)
    (fields : list string) (start : N) (cols : list SmartColumn.t) :
  map_built (fun c => init m (snd c) (fst c) (Mapping qp) p) (enumerate start fields)
    = Built cols ->
  List.length cols = List.length fields /\
  forall n col, nth_error cols n = Some col ->
    nth_error fields n = Some (field_name col) /\
    init m (field_name col) (start + N.of_nat n) (Mapping qp) p = Built col.
Proof.
  revert start cols. induction fields as [|f fields IH]; intros start cols;
    cbn [enumerate map_built].
  - intros [= <-]. split; [reflexivity|]. intros [|n] col H; discriminate H.
  - cbn [fst snd].
    destruct (init m f start (Mapping qp) p) as [c|] eqn:Hc; cbn [bind_built];
      [|discriminate].
    destruct (map_built _ (enumerate (start + 1) fields)) as [cs|] eqn:Hcs;
      cbn [bind_built]; [|discriminate].
    intros [= <-]. destruct (IH _ _ Hcs) as [Hlen Hnth].
    split; [cbn; now rewrite Hlen|].
    intros [|n] col; cbn [nth_error].
    + intros [= <-]. destruct (init_built _ _ _ _ _ _ Hc) as [Hname _].
      rewrite Hname. split; [reflexivity|]. now rewrite N.add_0_r.
    + intros H. destruct (Hnth n col H) as [H1 H2]. split; [exact H1|].
      replace (start + N.of_nat (S n))%N with (start + 1 + N.of_nat n)%N by lia.
      exact H2.
Qed.

(** X20: when display fields are given and the list is built, there is one
    column per display field, in order, and the [SmartOrder] of the column
    at position [n] (counted from 0) has column id [n + 1] over the list's
    query parameters. *)
Theorem list_column_ids (m : model) (query_params : option (Dict.t param))
    (list_display : list string) (list_filter : list SmartFilter.field_arg)
    (sp op : string) (sl : SmartList.t) :
  SmartList.init m query_params list_display list_filter sp op = Built sl ->
  list_display <> [] ->
  List.length (SmartList.columns sl) = List.length list_display /\
  forall n col, nth_error (SmartList.columns sl) n = Some col ->
    nth_error list_display n = Some (field_name col) /\
    forall so, order col = Some so ->
      SmartOrder.column_id so = N.of_nat (S n) /\
      SmartOrder.query_params so = SmartList.query_params sl /\
      SmartOrder.ordering_query_param so = op.
Proof.
  unfold SmartList.init. intros Hinit Hne.
  set (qp := match query_params with Some d => d | None => [] end) in *.
  destruct (map_built _ (enumerate 1 list_display)) as [cols|] eqn:Hcols;
    cbn [bind_built] in Hinit; [|discriminate].
  destruct (map_built_enumerate _ _ _ _ _ _ Hcols) as [Hlen Hnth].
  destruct cols as [|c cols].
  { destruct list_display; [congruence | discriminate Hlen]. }
  cbn [bind_built] in Hinit.
  destruct (map_built _ list_filter) as [fs|]; cbn [bind_built] in Hinit; [|discriminate].
  injection Hinit as <-. cbn [SmartList.columns SmartList.query_params].
  split; [exact Hlen|].
  intros n col Hcol. destruct (Hnth n col Hcol) as [H1 H2]. split; [exact H1|].
  intros so Hso.
  destruct (init_built _ _ _ _ _ _ H2) as (_ & _ & Ho). rewrite Hso in Ho.
  destruct Ho as [_ Hmk]. unfold make_order, lift in Hmk.
  destruct (SmartOrder.init qp (1 + N.of_nat n) op) as [so'|] eqn:Hso'; [|discriminate].
  injection Hmk as ->.
  destruct (init_fields _ _ _ _ Hso') as (Hq & Hc & Hp & _).
  split; [rewrite Hc; lia | auto].
Qed.

Lemma list_column_ids_witness :
  let m := mk_model status_meta (fun _ => None) in
  exists sl,
    SmartList.init m (Some [("o", Single "2")]) ["name"; "status"] [] "q" "o" = Built sl /\
    ["name"; "status"] <> [] /\
    List.length (SmartList.columns sl) = 2.
Proof.
  cbv zeta. eexists. split; [reflexivity|]. split; [discriminate|].
  exact (proj1 (list_column_ids (mk_model status_meta (fun _ => None))
                  (Some [("o", Single "2")]) ["name"; "status"] [] "q" "o" _
                  eq_refl ltac:(discriminate))).
Defined.

(** X21: with no display field the list has the single column ["__str__"];
    that column is handed the value of the sort parameter instead of the
    query parameters, so it is never sortable: when ["__str__"] resolves to
    an order field, construction raises [AttributeError]. *)
Theorem list_default_column (m : model) (query_params : option (Dict.t param))
    (list_filter : list SmartFilter.field_arg) (sp op : string) :
  (forall sl,
     SmartList.init m query_params [] list_filter sp op = Built sl ->
     exists col, SmartList.columns sl = [col] /\
                 field_name col = "__str__" /\ order col = None) /\
  (forall mf ofield,
     resolve m "__str__" = Built (mf, ofield) -> truthy_opt ofield = true ->
     SmartList.init m query_params [] list_filter sp op = Failed (Python AttributeError)).
Proof.
  unfold SmartList.init. cbn [enumerate map_built bind_built]. split.
  - intros sl Hinit.
    destruct (init m "__str__" 1 _ op) as [col|] eqn:Hcol; cbn [bind_built] in Hinit;
      [|discriminate].
    destruct (map_built _ list_filter) as [fs|]; cbn [bind_built] in Hinit; [|discriminate].
    injection Hinit as <-. exists col. cbn [SmartList.columns].
    split; [reflexivity|].
    destruct (init_built _ _ _ _ _ _ Hcol) as (Hname & _ & Ho).
    split; [exact Hname|].
    destruct (order col) as [so|]; [|reflexivity].
    destruct Ho as [_ Hmk]. discriminate Hmk.
  - intros mf ofield Hres Ht. unfold init. cbn [PyStr.startswith andb negb].
    rewrite Hres. cbn [bind_built snd]. rewrite Ht. reflexivity.
Qed.

Lemma list_default_column_witness :
  let m := mk_model (fun _ => None)
             (fun name => if String.eqb name "__str__"
                          then Some (mk_attribute true (Some "name") false)
                          else None) in
  resolve m "__str__" = Built (None, Some "name") /\
  truthy_opt (Some "name") = true /\
  SmartList.init m (Some [("o", Single "1")]) [] [] "q" "o"
    = Failed (Python AttributeError).
Proof.
  cbv zeta. split; [reflexivity|]. split; [reflexivity|].
  exact (proj2 (list_default_column
                  (mk_model (fun _ => None)
                     (fun name => if String.eqb name "__str__"
                                  then Some (mk_attribute true (Some "name") false)
                                  else None))
                  (Some [("o", Single "1")]) [] "q" "o")
           None (Some "name") eq_refl eq_refl).
Defined.

(** X22: a sort token that [SmartOrder] refuses aborts the construction of
    the whole list as soon as the first display field is a model field:
    the exception of [SmartOrder.__init__] comes out of [SmartList]. *)
Theorem list_malformed_token (m : model) (qp : Dict.t param)
    (field : string) (fields : list string) (f : SmartFilter.model_field)
    (list_filter : list SmartFilter.field_arg) (sp op : string) (e : exn) :
  get_field m field = Some f ->
  PyStr.startswith "_" field = false ->
  PyStr.truthy field = true ->
  SmartOrder.init qp 1 op = Raise e ->
  SmartList.init m (Some qp) (field :: fields) list_filter sp op = Failed (Python e).
Proof.
  intros Hf Hu Ht Hso. unfold SmartList.init.
  cbn [enumerate map_built fst snd]. unfold init at 1, resolve.
  rewrite Hu, Hf. cbn [andb bind_built fst snd truthy_opt]. rewrite Ht.
  unfold make_order. rewrite Hso. reflexivity.
Qed.

Lemma list_malformed_token_witness :
  let m := mk_model status_meta (fun _ => None) in
  get_field m "status" = Some (SmartFilter.Field [(VInt 1, "Open"); (VInt 2, "Closed")]
                                 SmartFilter.OtherField) /\
  PyStr.startswith "_" "status" = false /\
  PyStr.truthy "status" = true /\
  SmartOrder.init [("o", Single "1.x")] 1 "o" = Raise ValueError /\
  SmartList.init m (Some [("o", Single "1.x")]) ["status"; "name"] [] "q" "o"
    = Failed (Python ValueError).
Proof.
  cbv zeta. split; [reflexivity|]. split; [reflexivity|]. split; [reflexivity|].
  split; [reflexivity|].
  exact (list_malformed_token (mk_model status_meta (fun _ => None))
           [("o", Single "1.x")] "status" ["name"] _ [] "q" "o" ValueError
           eq_refl eq_refl eq_refl eq_refl).
Defined.

End ListFacts.

Section OptionLinks.



End OptionLinks.
